(** * Flight-price pipeline: acquisition, ingestion, logging and error context

    A shallow embedding of the stage-execution core of the repository

    - [scripts/data_acquisition.py]   ([DataAcquisition.download_zip], [extract_all])
    - [scripts/ingest_db.py]          ([ingest_db])
    - [core/logging_setup.py]         ([get_logger])
    - [core/exception.py]             ([error_message_details], [CustomException])
    - [utils/data_io.py]              ([load_yaml], [create_directories])
    - [config/configuration.py]       ([ConfigurationManager.__init__],
                                       [get_data_ingestion_config])
    - [components/data_ingestion.py]  ([DataIngestion.load_data_from_db])
    - [template.py]                   (the scaffold script)
    - [notebooks/helpers/data_diagnostics.py]  ([check_duplicates])

    Python statements become computations in a state-and-exception monad over
    a [world] that holds the file system, the logging registry, the database
    and the trace of externally observable events.  A raised exception keeps
    the state reached so far, as in Python. *)

From stdpp Require Import gmap strings list fin_maps pretty.

Set Warnings "-register-all".

(* ===================================================================== *)
(** * Part I: the model *)
(* ===================================================================== *)

(** ** Paths and the file system *)

(** A [pathlib.Path] is the list of its components, innermost component
    first: [Path("data/raw/a.zip")] is ["a.zip"; "raw"; "data"].  The empty
    list is the anchor (["."] or ["/"]), which is its own parent. *)
Abbreviation path := (list string).

Definition parent (p : path) : path := tail p.

(** [p / name] *)
Definition joinpath (p : path) (name : string) : path := name :: p.

Inductive node :=
| File (data : string)
| Dir.

Global Instance node_eq_dec : EqDecision node.
Proof. solve_decision. Defined.

(** [st_size]; the size reported for a directory is the block size. *)
Definition dir_st_size : N := 4096.

Definition st_size (n : node) : N :=
  match n with
  | File data => N.of_nat (String.length data)
  | Dir => dir_st_size
  end.

(** ** Exceptions *)

Inductive errno := ENOENT | EEXIST | ENOTDIR | EISDIR.

(** [OSError e p] stands for the subclass Python picks from the errno:
    [FileNotFoundError], [FileExistsError], [NotADirectoryError],
    [IsADirectoryError].  [FileNotFoundError_msg] is a [FileNotFoundError]
    raised by the program itself with a message. *)
Inductive exn :=
| OSError (e : errno) (filename : path)
| FileNotFoundError_msg (msg : string)
| RuntimeError (msg : string)
| ValueError (msg : string)
| TypeError (msg : string)
| AttributeError (msg : string)
| BoxValueError (msg : string)
| BoxKeyError (key : string)
| YAMLError (msg : string)
| BadZipFile
| ParserError (msg : string)
| OperationalError
| LibraryError (msg : string).


(** [BoxValueError] derives from [ValueError]. *)
Definition is_ValueError (e : exn) : bool :=
  match e with
  | ValueError _ | BoxValueError _ => true
  | _ => false
  end.

Inductive outcome (A : Type) :=
| Ret (a : A)
| Raise (e : exn).
Arguments Ret {A} a.
Arguments Raise {A} e.

(** ** Observable events *)

Inductive event :=
| EvFetch (url : string) (output : path)        (* a call of gdown.download *)
| EvStdoutSkip (size : N)                       (* the "already exists" print *)
| EvZipOpen (archive : path)                    (* zipfile.ZipFile is called *)
| EvRootLog (levelname : string) (msg : string) (* a record given to the root logger *)
| EvConsole (line : string).                    (* a line written by a StreamHandler *)

(** ** Logging objects *)

Inductive open_mode := ModeW | ModeA.

Record Formatter := {
  fmt : string;
  datefmt : string
}.

Inductive sink :=
| FileStream (baseFilename : path) (mode : open_mode)
| Stderr.

Record handler := Handler {
  stream : sink;
  hlevel : nat;
  formatter : option Formatter
}.

Definition NOTSET : nat := 0.
Definition INFO : nat := 20.

Record logger := Logger {
  level : nat;
  handlers : list handler;
  propagate : bool
}.

(** ** Tables *)

Record DataFrame := {
  columns : list string;
  rows : list (list string)
}.

(** ** The world *)

Record world := World {
  fs : gmap path node;                  (* the file system *)
  trace : list event;                   (* events, oldest first *)
  loggerDict : gmap string nat;         (* logging.Logger.manager.loggerDict: name -> object *)
  objects : gmap nat logger;            (* the logger objects, by identity *)
  next_id : nat;                        (* next fresh object identity *)
  root_handlers : list handler;         (* handlers of the root logger *)
  db : option (gmap string DataFrame)   (* the database server; None when unreachable *)
}.

Definition set_fs (f : gmap path node → gmap path node) (w : world) : world :=
  World (f (fs w)) (trace w) (loggerDict w) (objects w) (next_id w) (root_handlers w) (db w).

Definition add_event (ev : event) (w : world) : world :=
  World (fs w) (trace w ++ [ev]) (loggerDict w) (objects w) (next_id w) (root_handlers w) (db w).

Definition set_db (d : option (gmap string DataFrame)) (w : world) : world :=
  World (fs w) (trace w) (loggerDict w) (objects w) (next_id w) (root_handlers w) d.

(** ** The monad of Python statements *)

Definition M (A : Type) : Type := world → outcome A * world.

Global Instance M_ret : MRet M := λ A a w, (Ret a, w).
Global Instance M_bind : MBind M := λ A B f m w,
  match m w with
  | (Ret a, w') => f a w'
  | (Raise e, w') => (Raise e, w')
  end.

Definition raise {A} (e : exn) : M A := λ w, (Raise e, w).

(** [try: m except Exception as e: h e] *)
Definition try_except {A} (m : M A) (h : exn → M A) : M A := λ w,
  match m w with
  | (Ret a, w') => (Ret a, w')
  | (Raise e, w') => h e w'
  end.

Definition get_fs : M (gmap path node) := λ w, (Ret (fs w), w).
Definition modify_fs (f : gmap path node → gmap path node) : M unit :=
  λ w, (Ret tt, set_fs f w).
Definition emit (ev : event) : M unit := λ w, (Ret tt, add_event ev w).

(** ** File-system calls *)

(** Why resolving a path that is absent fails: a regular file on the way
    gives ENOTDIR, a missing component ENOENT. *)
Fixpoint missing_errno (f : gmap path node) (p : path) : errno :=
  match p with
  | [] => ENOENT
  | _ :: q =>
      match f !! q with
      | Some Dir => ENOENT
      | Some (File _) => ENOTDIR
      | None => missing_errno f q
      end
  end.

(** [os.stat(p)] *)
Definition os_stat (p : path) : M node :=
  f ← get_fs;
  match f !! p with
  | Some n => mret n
  | None => raise (OSError (missing_errno f p) p)
  end.

(** [p.exists()]: the stat errors for a missing path are swallowed. *)
Definition Path_exists (p : path) : M bool :=
  f ← get_fs; mret (bool_decide (is_Some (f !! p))).

(** [p.is_dir()] *)
Definition Path_is_dir (p : path) : M bool :=
  f ← get_fs; mret (bool_decide (f !! p = Some Dir)).

(** [os.mkdir(p)] *)
Definition os_mkdir (p : path) : M unit :=
  f ← get_fs;
  match f !! p with
  | Some _ => raise (OSError EEXIST p)
  | None =>
      match f !! parent p, p with
      | Some Dir, _ :: _ => modify_fs <[p := Dir]>
      | _, _ => raise (OSError (missing_errno f p) p)
      end
  end.

(** [p.mkdir(parents=False, exist_ok=True)] *)
Definition Path_mkdir_exist_ok (p : path) : M unit :=
  try_except (os_mkdir p) (λ e : exn,
    match e with
    | OSError ENOENT _ => raise e
    | _ => d ← Path_is_dir p; if d : bool then mret tt else raise e
    end).

(** [p.mkdir(parents=True, exist_ok=True)], as pathlib writes it: try
    [os.mkdir]; on [FileNotFoundError] create the parent first and retry;
    on any other [OSError] succeed only if [p] is already a directory. *)
Fixpoint Path_mkdir (p : path) : M unit :=
  try_except (os_mkdir p) (λ e : exn,
    match e with
    | OSError ENOENT _ =>
        match p with
        | [] => raise e
        | _ :: q => Path_mkdir q;; Path_mkdir_exist_ok p
        end
    | _ => d ← Path_is_dir p; if d : bool then mret tt else raise e
    end).

(** [os.makedirs(p)] with [exist_ok=False]: a racing-creation
    [FileExistsError] of an ancestor is ignored, that of [p] is not. *)
Fixpoint os_makedirs (p : path) : M unit :=
  match p with
  | [] => os_mkdir []
  | _ :: q =>
      e ← Path_exists q;
      (if e : bool then mret tt
       else try_except (os_makedirs q) (λ e : exn,
              match e with
              | OSError EEXIST _ => mret tt
              | _ => raise e
              end));;
      os_mkdir p
  end.

(** [open(p, "r").read()] *)
Definition read_file (p : path) : M string :=
  f ← get_fs;
  match f !! p with
  | Some (File data) => mret data
  | Some Dir => raise (OSError EISDIR p)
  | None => raise (OSError (missing_errno f p) p)
  end.

(** [open(p, mode)] for writing: ["w"] creates or truncates, ["a"] creates
    when missing and keeps the content otherwise. *)
Definition open_for_write (p : path) (mode : open_mode) : M unit :=
  f ← get_fs;
  match f !! p with
  | Some Dir => raise (OSError EISDIR p)
  | Some (File _) =>
      match mode with
      | ModeW => modify_fs <[p := File ""]>
      | ModeA => mret tt
      end
  | None =>
      match f !! parent p, p with
      | Some Dir, _ :: _ => modify_fs <[p := File ""]>
      | _, _ => raise (OSError (missing_errno f p) p)
      end
  end.

(** Writing through an open stream whose position is the end of the
    file: the text goes to the end of the file.  That is where a stream
    opened for appending always writes, and where one opened in mode
    ["w"] writes as long as nothing else has written the file since. *)
Definition stream_write (p : path) (text : string) : M unit :=
  modify_fs (λ f,
    match f !! p with
    | Some (File data) => <[p := File (data +:+ text)]> f
    | _ => f
    end).

(** [with open(p, "wb") as target: target.write(data)] *)
Definition write_file (p : path) (data : string) : M unit :=
  open_for_write p ModeW;; stream_write p data.

(** [a and b], with Python's short circuit. *)
Definition py_and (a b : M bool) : M bool :=
  x ← a; if x : bool then b else mret false.

Definition py_not (a : M bool) : M bool :=
  x ← a; mret (negb x).

(** The well-formed file systems: the anchor is a directory and whatever
    exists lies in a directory. *)
Definition wf_fs (f : gmap path node) : Prop :=
  f !! [] = Some Dir ∧
  map_Forall (λ p _, f !! parent p = Some Dir) f.

Global Instance wf_fs_dec f : Decision (wf_fs f).
Proof. unfold wf_fs. apply _. Defined.

(* ===================================================================== *)
(** ** scripts/data_acquisition.py *)
(* ===================================================================== *)

Module DataAcquisition.

Record DataAcquisitionConfig := {
  file_id : string;
  download_file_path : path;
  extract_dir : path
}.

(** An entry of a ZIP archive: its sanitised relative name (innermost
    component first) and its bytes, or [None] for a directory entry. *)
Record zip_member := {
  arcname : path;
  body : option string
}.

Section externals.

(** [gdown.download(url=, output=, quiet=False)]: whatever the library and
    the network do to the file system, and whether the call returns or
    raises. *)
Variable gdown_download : string → path → gmap path node → outcome unit * gmap path node.

(** The central directory of a ZIP file, read from its bytes; [None] when
    the bytes are not a ZIP archive. *)
Variable zip_infolist : string → option (list zip_member).

Definition run_gdown (url : string) (output : path) : M unit := λ w,
  let '(r, f') := gdown_download url output (fs w) in (r, set_fs (λ _, f') w).

Definition call_gdown (url : string) (output : path) : M unit :=
  emit (EvFetch url output);; run_gdown url output.

(** The guard of line 96: [p.exists() and p.stat().st_size > 0]. *)
Definition exists_and_nonempty (p : path) : M bool :=
  py_and (Path_exists p) (n ← os_stat p; mret (0 <? st_size n)%N).

(** The guard of lines 104 and 128: [not p.exists() and p.stat().st_size == 0]. *)
Definition missing_and_empty (p : path) : M bool :=
  py_and (py_not (Path_exists p)) (n ← os_stat p; mret (st_size n =? 0)%N).

Definition download_zip (config : DataAcquisitionConfig) : M unit :=
  try_except
    (let file_id := file_id config in
     let download_file_path := download_file_path config in
     let url := "https://drive.google.com/uc?id=" +:+ file_id in
     Path_mkdir (parent download_file_path);;
     skip ← exists_and_nonempty download_file_path;
     if skip : bool then
       n ← os_stat download_file_path;
       emit (EvStdoutSkip (st_size n))
     else
       call_gdown url download_file_path;;
       bad ← missing_and_empty download_file_path;
       if bad : bool then raise (RuntimeError "Download failed or produced an empty file")
       else mret tt)
    (λ e, raise e).

(** [zipfile.ZipFile(p, "r")] *)
Definition ZipFile (p : path) : M (list zip_member) :=
  emit (EvZipOpen p);;
  data ← read_file p;
  match zip_infolist data with
  | Some members => mret members
  | None => raise BadZipFile
  end.

(** [ZipFile._extract_member], for a destination written without [..]:
    the target is the sanitised name below the destination. *)
Definition extract_member (dest : path) (m : zip_member) : M unit :=
  let targetpath := arcname m ++ dest in
  let upperdirs := parent targetpath in
  e ← Path_exists upperdirs;
  (if e : bool then mret tt else os_makedirs upperdirs);;
  match body m with
  | None =>
      d ← Path_is_dir targetpath;
      if d : bool then mret tt else os_mkdir targetpath
  | Some data => write_file targetpath data
  end.

(** [zip_ref.extractall(dest)] *)
Fixpoint extractall (members : list zip_member) (dest : path) : M unit :=
  match members with
  | [] => mret tt
  | m :: rest => extract_member dest m;; extractall rest dest
  end.

Definition extract_all (config : DataAcquisitionConfig) : M unit :=
  try_except
    (let zip_file_path := download_file_path config in
     let extract_dir := extract_dir config in
     Path_mkdir extract_dir;;
     bad ← missing_and_empty zip_file_path;
     (if bad : bool then raise (FileNotFoundError_msg "Zip file is missing or empty. Cannot extract.")
      else mret tt);;
     zip_ref ← ZipFile zip_file_path;
     extractall zip_ref extract_dir)
    (λ e, raise e).

(** The statements of [extract_all] that follow the directory creation. *)
Definition validate_and_extract (config : DataAcquisitionConfig) : M unit :=
  bad ← missing_and_empty (download_file_path config);
  (if bad : bool then raise (FileNotFoundError_msg "Zip file is missing or empty. Cannot extract.")
   else mret tt);;
  zip_ref ← ZipFile (download_file_path config);
  extractall zip_ref (extract_dir config).

End externals.

End DataAcquisition.

(* ===================================================================== *)
(** ** core/logging_setup.py *)
(* ===================================================================== *)

Module LoggingSetup.

Definition WARNING : nat := 30.

Definition set_loggers (d : gmap string nat) (o : gmap nat logger) (n : nat) (w : world) : world :=
  World (fs w) (trace w) d o n (root_handlers w) (db w).

(** The names that [logging.getLogger] answers with the root logger
    itself.  The root logger has no entry in [loggerDict] and is not one
    of the [objects]: of it the world holds the handlers only, and every
    statement about [getLogger] and [get_logger] is for the other names,
    which are the names this program uses. *)
Definition root_name (name : string) : Prop := name = "" ∨ name = "root".

(** [logging.getLogger(name)] for a name other than the root's: the logger
    registered under [name], created (no level, no handler, propagating)
    on the first request. *)
Definition getLogger (name : string) : M nat := λ w,
  match loggerDict w !! name with
  | Some l => (Ret l, w)
  | None =>
      let l := next_id w in
      (Ret l, set_loggers (<[name := l]> (loggerDict w))
                          (<[l := Logger NOTSET [] true]> (objects w)) (S l) w)
  end.

Definition update_logger (l : nat) (f : logger → logger) : M unit := λ w,
  (Ret tt, set_loggers (loggerDict w) (alter f l (objects w)) (next_id w) w).

(** [logger.setLevel(lv)] *)
Definition setLevel (l : nat) (lv : nat) : M unit :=
  update_logger l (λ lg, Logger lv (handlers lg) (propagate lg)).

(** [logger.addHandler(h)] for a handler object that is not yet attached. *)
Definition addHandler (l : nat) (h : handler) : M unit :=
  update_logger l (λ lg, Logger (level lg) (handlers lg ++ [h]) (propagate lg)).

(** [logger.propagate = b] *)
Definition set_propagate (l : nat) (b : bool) : M unit :=
  update_logger l (λ lg, Logger (level lg) (handlers lg) b).

(** [logger.handlers] *)
Definition get_handlers (l : nat) : M (list handler) := λ w,
  (Ret (from_option handlers [] (objects w !! l)), w).

(** [logging.FileHandler(p, mode=mode)]: the file is opened at once. *)
Definition new_FileHandler (p : path) (mode : open_mode) : M handler :=
  open_for_write p mode;; mret (Handler (FileStream p mode) NOTSET None).

(** [logging.StreamHandler()] *)
Definition new_StreamHandler : M handler :=
  mret (Handler Stderr NOTSET None).

Definition Handler_setLevel (h : handler) (lv : nat) : handler :=
  Handler (stream h) lv (formatter h).

Definition Handler_setFormatter (h : handler) (f : Formatter) : handler :=
  Handler (stream h) (hlevel h) (Some f).

Definition get_logger (name : string) (log_file_path : path) (mode : open_mode) : M nat :=
  Path_mkdir (parent log_file_path);;
  logger ← getLogger name;
  setLevel logger INFO;;
  hs ← get_handlers logger;
  match hs with
  | [] =>
      (* File handler *)
      fh ← new_FileHandler log_file_path mode;
      let fh := Handler_setLevel fh INFO in
      (* Console handler *)
      ch ← new_StreamHandler;
      let ch := Handler_setLevel ch INFO in
      (* Formatter *)
      let formatter :=
        {| fmt := "%(asctime)s - %(name)s - %(module)s - %(levelname)s - %(message)s";
           datefmt := "%Y-%m-%d %H:%M:%S" |} in
      let fh := Handler_setFormatter fh formatter in
      let ch := Handler_setFormatter ch formatter in
      addHandler logger fh;;
      addHandler logger ch
  | _ :: _ => mret tt
  end;;
  set_propagate logger false;;
  mret logger.

(** The statements of [get_logger] that follow [logging.getLogger(name)],
    as one computation on the logger object. *)
Definition configure (logger : nat) (log_file_path : path) (mode : open_mode) : M nat :=
  setLevel logger INFO;;
  hs ← get_handlers logger;
  match hs with
  | [] =>
      fh ← new_FileHandler log_file_path mode;
      let fh := Handler_setLevel fh INFO in
      ch ← new_StreamHandler;
      let ch := Handler_setLevel ch INFO in
      let formatter :=
        {| fmt := "%(asctime)s - %(name)s - %(module)s - %(levelname)s - %(message)s";
           datefmt := "%Y-%m-%d %H:%M:%S" |} in
      let fh := Handler_setFormatter fh formatter in
      let ch := Handler_setFormatter ch formatter in
      addHandler logger fh;;
      addHandler logger ch
  | _ :: _ => mret tt
  end;;
  set_propagate logger false;;
  mret logger.

(** *** Emitting a record *)

(** What the caller and the clock contribute to a log record. *)
Record LogRecord := {
  asctime : string;
  module : string;
  message : string
}.

(** [Formatter.format]: the timestamped layout of [get_logger], or the
    bare message for a handler without formatter. *)
Definition format_record (f : option Formatter) (name : string) (levelname : string)
    (r : LogRecord) : string :=
  match f with
  | Some _ =>
      asctime r +:+ " - " +:+ name +:+ " - " +:+ module r +:+ " - " +:+ levelname
        +:+ " - " +:+ message r
  | None => message r
  end.

(** [StreamHandler.terminator], the line feed. *)
Definition terminator : string := String (Ascii.ascii_of_nat 10) "".

(** [Handler.handle] *)
Definition Handler_handle (h : handler) (name : string) (levelno : nat) (levelname : string)
    (r : LogRecord) : M unit :=
  if decide (hlevel h ≤ levelno) then
    let line := format_record (formatter h) name levelname r in
    match stream h with
    | FileStream p _ => stream_write p (line +:+ terminator)
    | Stderr => emit (EvConsole line)
    end
  else mret tt.

Fixpoint handle_all (hs : list handler) (name : string) (levelno : nat) (levelname : string)
    (r : LogRecord) : M unit :=
  match hs with
  | [] => mret tt
  | h :: rest => Handler_handle h name levelno levelname r;; handle_all rest name levelno levelname r
  end.

(** [logger.info(msg)] for a logger whose parent is the root logger (no
    name of this program has a dot): the record goes to the logger's own
    handlers and, if it propagates, to the root's. *)
Definition Logger_info (l : nat) (name : string) (r : LogRecord) : M unit := λ w,
  match objects w !! l with
  | None => (Ret tt, w)
  | Some lg =>
      let effective := if decide (level lg = NOTSET) then WARNING else level lg in
      if decide (effective ≤ INFO) then
        (handle_all (handlers lg) name INFO "INFO" r;;
         if propagate lg then handle_all (root_handlers w) name INFO "INFO" r else mret tt) w
      else (Ret tt, w)
  end.

(** The formatter, the handlers and the logger that [get_logger] builds. *)
Definition project_formatter : Formatter :=
  {| fmt := "%(asctime)s - %(name)s - %(module)s - %(levelname)s - %(message)s";
     datefmt := "%Y-%m-%d %H:%M:%S" |}.

Definition project_logger (log_file_path : path) (mode : open_mode) : logger :=
  Logger INFO
    [Handler (FileStream log_file_path mode) INFO (Some project_formatter);
     Handler Stderr INFO (Some project_formatter)]
    false.

(** [attached name l p m w]: in [w] the name is registered for the object
    [l], which carries exactly the two handlers of [get_logger name p m],
    and the log file is there. *)
Definition attached (name : string) (l : nat) (p : path) (m : open_mode) (w : world) : Prop :=
  loggerDict w !! name = Some l
  ∧ l < next_id w
  ∧ objects w !! l = Some (project_logger p m)
  ∧ ∃ data, fs w !! p = Some (File data).


End LoggingSetup.

(* ===================================================================== *)
(** ** core/exception.py *)
(* ===================================================================== *)

Module Exception.

(** What [error_message_details] reads from a traceback:
    [tb_frame.f_code.co_filename] and [tb_lineno]. *)
Record traceback := {
  co_filename : string;
  tb_lineno : nat
}.

(** The [sys] module as [error_message_details] uses it: the third
    component of [sys.exc_info()], [None] when no exception is being
    handled. *)
Record sys_module := {
  exc_info : option traceback
}.

(** [logging.error(msg)]: with no handler on the root logger,
    [basicConfig()] first installs a console handler. *)
Definition logging_error (msg : string) : M unit := λ w,
  let hs := match root_handlers w with
            | [] => [Handler Stderr NOTSET None]
            | hs => hs
            end in
  (Ret tt, World (fs w) (trace w ++ [EvRootLog "ERROR" msg]) (loggerDict w) (objects w)
                 (next_id w) hs (db w)).

Section cause.

(** The wrapped error and Python's [str] on it. *)
Context {Cause : Type} (str : Cause → string).

Definition error_message_details (error : Cause) (error_detail : sys_module) : M string :=
  match exc_info error_detail with
  | None => raise (AttributeError "'NoneType' object has no attribute 'tb_frame'")
  | Some exc_tb =>
      let file_name := co_filename exc_tb in
      let line_number := tb_lineno exc_tb in
      let error_message :=
        "Error occurred in python script - " +:+ file_name +:+ ", "
        +:+ "line number - " +:+ pretty line_number +:+ ", "
        +:+ "error message - " +:+ str error in
      logging_error error_message;;
      mret error_message
  end.

Record CustomException := {
  args : Cause;               (* what [super().__init__] keeps *)
  error_message : string
}.

(** [CustomException.__init__] *)
Definition CustomException_init (error_message : Cause) (error_detail : sys_module)
    : M CustomException :=
  msg ← error_message_details error_message error_detail;
  mret {| args := error_message; error_message := msg |}.

(** [CustomException.__str__] *)
Definition CustomException_str (self : CustomException) : string :=
  error_message self.

End cause.

End Exception.

(* ===================================================================== *)
(** ** utils/data_io.py *)
(* ===================================================================== *)

Module DataIO.

(** What [yaml.safe_load] returns.  Mapping keys are strings. *)
Inductive yaml :=
| YNull
| YBool (b : bool)
| YInt (z : Z)
| YFloat (repr : string)
| YStr (s : string)
| YSeq (items : list yaml)
| YMap (items : list (string * yaml)).

(** A [ConfigBox]: the mapping it was built from. *)
Abbreviation ConfigBox := (list (string * yaml)).

Fixpoint assoc (key : string) (items : list (string * yaml)) : option yaml :=
  match items with
  | [] => None
  | (k, v) :: rest => if decide (k = key) then Some v else assoc key rest
  end.

Section box.

(** What attribute access on a box still finds when no key is equal to
    the attribute name.  python-box builds its boxes with
    [conversion_box=True], so [box.data_ingestion] also answers for a key
    whose attribute-safe spelling is [data_ingestion] (["data-ingestion"],
    ["data ingestion"]), and a [ConfigBox] tries the lower-case name as
    well.  The rule is the library's; it is taken as given. *)
Variable box_conversion : string → ConfigBox → option yaml.

(** The value that [box.key] resolves to, if any: a key equal to the name
    first, the library's conversion otherwise. *)
Definition box_lookup (key : string) (items : ConfigBox) : option yaml :=
  match assoc key items with
  | Some x => Some x
  | None => box_conversion key items
  end.

(** Attribute access [v.key], for the names this program asks for (none
    of them is a method of a box, a list or a scalar): on a box a name
    that does not resolve is a [BoxKeyError]; any other value has no such
    attribute. *)
Definition getattr (v : yaml) (key : string) : M yaml :=
  match v with
  | YMap items =>
      match assoc key items with
      | Some x => mret x
      | None =>
          match box_conversion key items with
          | Some x => mret x
          | None => raise (BoxKeyError key)
          end
      end
  | _ => raise (AttributeError key)
  end.

End box.

(** The components of a path string, outermost first. *)
Fixpoint path_parts (cur : string) (s : string) : list string :=
  match s with
  | EmptyString => [cur]
  | String c s' =>
      if Ascii.eqb c (Ascii.ascii_of_nat 47) then cur :: path_parts "" s'
      else path_parts (cur +:+ String c "") s'
  end.

(** [Path(s)]: empty and ["."] components are dropped. *)
Definition Path_of_str (s : string) : path :=
  reverse (filter (λ x, x ≠ "" ∧ x ≠ ".") (path_parts "" s)).

(** [Path(v)] for a configuration value. *)
Definition Path (v : yaml) : M path :=
  match v with
  | YStr s => mret (Path_of_str s)
  | _ => raise (TypeError "expected str, bytes or os.PathLike object")
  end.

(** [str(p)] *)
Definition path_str (p : path) : string :=
  String.concat "/" (reverse p).

Section externals.

(** The YAML parser on the text of a document: the loaded value, or the
    message of the [yaml.YAMLError] it raises on a malformed document. *)
Variable yaml_safe_load : string → yaml + string.

(** [Box.__init__] on an iterable of key/value pairs. *)
Variable box_from_iterable : list yaml → outcome ConfigBox.

Definition safe_load (data : string) : M yaml :=
  match yaml_safe_load data with
  | inl v => mret v
  | inr msg => raise (YAMLError msg)
  end.

(** [ConfigBox(content)], following [Box.__init__] with one argument. *)
Definition ConfigBox_init (content : yaml) : M ConfigBox :=
  match content with
  | YStr _ => raise (BoxValueError "Cannot extrapolate Box from string")
  | YMap items => mret items
  | YSeq items => λ w, (box_from_iterable items, w)
  | _ => raise (BoxValueError "First argument must be mapping or iterable")
  end.

Definition load_yaml (path_to_yaml : path) : M ConfigBox :=
  try_except
    (data ← read_file path_to_yaml;
     content ← safe_load data;
     match content with
     | YNull => raise (ValueError ("YAML file at " +:+ path_str path_to_yaml +:+ " is empty"))
     | _ => ConfigBox_init content
     end)
    (λ e,
       match e with
       | BoxValueError _ => raise (ValueError "YAML file is invalid or contains unsupported values")
       | _ => raise e
       end).

End externals.

Fixpoint create_directories (list_dir_path : list path) : M unit :=
  match list_dir_path with
  | [] => mret tt
  | dir_path :: rest => Path_mkdir dir_path;; create_directories rest
  end.

End DataIO.

(* ===================================================================== *)
(** ** config/configuration.py *)
(* ===================================================================== *)

Module Configuration.
Import DataIO.

Record ConfigurationManager := {
  config_path : path;
  config : ConfigBox
}.

(** [CONFIGS_DIR / "training-config.yaml"], relative to the project root. *)
Definition TRAINING_CONFIG_PATH : path := ["training-config.yaml"; "configs"].

Section externals.

Variable yaml_safe_load : string → yaml + string.
Variable box_from_iterable : list yaml → outcome ConfigBox.
Variable box_conversion : string → ConfigBox → option yaml.

(** [ConfigurationManager.__init__] *)
Definition ConfigurationManager_init (config_path : path) : M ConfigurationManager :=
  config ← load_yaml yaml_safe_load box_from_iterable config_path;
  data_ingestion ← getattr box_conversion (YMap config) "data_ingestion";
  raw_data_path ← getattr box_conversion data_ingestion "raw_data_path";
  p ← Path raw_data_path;
  create_directories [p];;
  mret {| config_path := config_path; config := config |}.

End externals.

End Configuration.

(* ===================================================================== *)
(** ** scripts/ingest_db.py *)
(* ===================================================================== *)

Module IngestDb.
Import DataIO.

(** [s.endswith(suffix)] *)
Definition endswith (s suffix : string) : bool :=
  let n := String.length s in
  let k := String.length suffix in
  if decide (k ≤ n) then bool_decide (String.substring (n - k) k s = suffix) else false.

(** The names of a listing that the loop of [ingest_db] takes. *)
Definition csv_files (files : list string) : list string :=
  filter (λ file, endswith file ".csv") files.

(** The names in directory [d], in the order the file system lists them. *)
Definition children (f : gmap path node) (d : path) : list string :=
  omap (λ kv : path * node,
          match kv.1 with
          | x :: q => if decide (q = d) then Some x else None
          | [] => None
          end)
       (map_to_list f).

(** [os.listdir(d)] *)
Definition os_listdir (d : path) : M (list string) :=
  f ← get_fs;
  match f !! d with
  | Some Dir => mret (children f d)
  | Some (File _) => raise (OSError ENOTDIR d)
  | None => raise (OSError (missing_errno f d) d)
  end.

(** [get_db_engine()], in an environment where the engine can be built
    (the driver is installed, the port of the URL is a number):
    [create_engine] only records the URL; the server is contacted when the
    engine is first used. *)
Definition get_db_engine : M unit := mret tt.

(** [df.to_sql(name=, con=engine, if_exists="replace", index=False)]: the
    table is dropped and recreated with the rows of [df]. *)
Definition to_sql_replace (name : yaml) (df : DataFrame) : M unit := λ w,
  match db w with
  | None => (Raise OperationalError, w)
  | Some tables =>
      match name with
      | YStr table => (Ret tt, set_db (Some (<[table := df]> tables)) w)
      | _ => (Raise (TypeError "table name must be a string"), w)
      end
  end.

Section externals.

(** The CSV parser of pandas on the text of a file; [None] when the text
    cannot be parsed. *)
Variable pd_parse_csv : string → option DataFrame.

Variable box_conversion : string → ConfigBox → option yaml.

(** [pd.read_csv(p)] *)
Definition pd_read_csv (p : path) : M DataFrame :=
  data ← read_file p;
  match pd_parse_csv data with
  | Some df => mret df
  | None => raise (ParserError "Error tokenizing data")
  end.

(** The [for file in os.listdir(data_dir)] loop of [ingest_db]. *)
Fixpoint ingest_files (table_name : yaml) (data_dir : path) (files : list string) : M unit :=
  match files with
  | [] => mret tt
  | file :: rest =>
      (if endswith file ".csv" then
         df ← pd_read_csv (joinpath data_dir file);
         to_sql_replace table_name df
       else mret tt);;
      ingest_files table_name data_dir rest
  end.

Definition ingest_db (config : ConfigBox) : M unit :=
  get_db_engine;;
  database ← getattr box_conversion (YMap config) "database";
  table_name ← getattr box_conversion database "table_name";
  database ← getattr box_conversion (YMap config) "database";
  data_dir ← getattr box_conversion database "data_dir";
  data_dir ← Path data_dir;
  files ← os_listdir data_dir;
  ingest_files table_name data_dir files.

End externals.

End IngestDb.

(* ===================================================================== *)
(** ** Relations between worlds *)
(* ===================================================================== *)

(** [preserves R m]: whatever [m] returns or raises, the world it leaves
    is related by [R] to the world it started from. *)
Definition preserves (R : relation world) {A} (m : M A) : Prop :=
  ∀ w r w', m w = (r, w') → R w w'.

(** Directories stay directories. *)
Definition dirs_kept : relation world :=
  λ w w', ∀ q, fs w !! q = Some Dir → fs w' !! q = Some Dir.

(** Only the file system changes. *)
Definition only_fs : relation world :=
  λ w w', w' = set_fs (λ _, fs w') w.

(** Only the file system changes, and only by new directories at [p] or
    above it. *)
Definition mkdir_towards (p : path) : relation world :=
  λ w w', only_fs w w'
    ∧ (∀ q n, fs w !! q = Some n → fs w' !! q = Some n)
    ∧ (∀ q n, fs w !! q = None → fs w' !! q = Some n → n = Dir ∧ q `suffix_of` p).

Definition is_OSError (e : exn) : Prop := ∃ en q, e = OSError en q.

(** Well-formedness of the file system is kept. *)
Definition wf_kept : relation world :=
  λ w w', wf_fs (fs w) → wf_fs (fs w').

(** A logger that [get_logger] has set up stays as it is. *)
Definition keeps_attached (name : string) (l : nat) (p : path) (m : open_mode)
    : relation world :=
  λ w w', LoggingSetup.attached name l p m w → LoggingSetup.attached name l p m w'.

(** The logging registry is untouched and files stay files. *)
Definition files_stay : relation world :=
  λ w w', loggerDict w' = loggerDict w ∧ objects w' = objects w ∧ next_id w' = next_id w
    ∧ ∀ q, (∃ d, fs w !! q = Some (File d)) → ∃ d, fs w' !! q = Some (File d).

(* ===================================================================== *)
(** ** Sample inputs *)
(* ===================================================================== *)

Module Samples.
Import DataAcquisition.

(** A fetch that gives up quietly: the library reports the failure on the
    console and returns without writing anything. *)
Definition gdown_gives_up : string → path → gmap path node → outcome unit * gmap path node :=
  λ _ _ f, (Ret tt, f).

(** A fetch that stores [data] at the output path. *)
Definition gdown_stores (data : string)
    : string → path → gmap path node → outcome unit * gmap path node :=
  λ _ output f,
    match f !! output with
    | Some Dir => (Raise (OSError EISDIR output), f)
    | _ => (Ret tt, <[output := File data]> f)
    end.

(** An archive reader that knows one archive, with a single file entry. *)
Definition zip_one_entry : string → option (list zip_member) :=
  λ data,
    if decide (data = "PK") then Some [ {| arcname := ["flights.csv"; "raw"]; body := Some "a,b" |} ]
    else None.

Definition config_tmp : DataAcquisitionConfig :=
  {| file_id := "X"; download_file_path := ["a.zip"; "tmp"]; extract_dir := ["out"; "tmp"] |}.

Definition world_of (f : gmap path node) : world :=
  World f [] ∅ ∅ 0 [] None.

Definition fs_tmp : gmap path node :=
  {[ [] := Dir; ["tmp"] := Dir ]}.

Definition fs_archive : gmap path node :=
  <[ ["a.zip"; "tmp"] := File "PK" ]> fs_tmp.

(** [extract_dir] below the path of the archive. *)
Definition config_below_archive : DataAcquisitionConfig :=
  {| file_id := "X"; download_file_path := ["a.zip"; "tmp"];
     extract_dir := ["out"; "a.zip"; "tmp"] |}.

(** The archive is expected inside what is a regular file. *)
Definition config_under_file : DataAcquisitionConfig :=
  {| file_id := "X"; download_file_path := ["a.zip"; "notes.txt"]; extract_dir := ["out"] |}.

Definition fs_notes : gmap path node :=
  {[ [] := Dir; ["notes.txt"] := File "n" ]}.

(** Only the anchor directory. *)
Definition fs_root : gmap path node :=
  {[ [] := Dir ]}.


(** A YAML loader that knows four documents (a training configuration
    without a [database] section, one without [raw_data_path], one with
    dashes in its keys, an empty one) and rejects every other text as
    malformed. *)
Definition training_yaml : string :=
  "data_ingestion: {raw_data_path: artifacts/raw}".

Definition no_raw_path_yaml : string :=
  "data_ingestion: {}".

Definition training_doc : DataIO.yaml :=
  DataIO.YMap [("data_ingestion", DataIO.YMap [("raw_data_path", DataIO.YStr "artifacts/raw")])].

(** The same configuration with its keys written with dashes. *)
Definition dashed_yaml : string :=
  "data-ingestion: {raw-data-path: artifacts/raw}".

Definition dashed_doc : DataIO.yaml :=
  DataIO.YMap [("data-ingestion", DataIO.YMap [("raw-data-path", DataIO.YStr "artifacts/raw")])].

Definition yaml_loader : string → DataIO.yaml + string :=
  λ data,
    if decide (data = training_yaml) then inl training_doc
    else if decide (data = no_raw_path_yaml)
      then inl (DataIO.YMap [("data_ingestion", DataIO.YMap [])])
    else if decide (data = dashed_yaml) then inl dashed_doc
    else if decide (data = "") then inl DataIO.YNull
    else inr "while parsing a flow mapping: expected ',' or '}'".

(** Sequences of pairs are not used by these documents. *)
Definition no_pairs : list DataIO.yaml → outcome DataIO.ConfigBox :=
  λ _, Raise (TypeError "cannot unpack non-iterable object").

(** The part of the library's conversion that these documents can meet:
    a key written with dashes answers for the name written with
    underscores. *)
Fixpoint undashed (key : string) : string :=
  match key with
  | EmptyString => EmptyString
  | String c rest =>
      String (if Ascii.eqb c (Ascii.ascii_of_nat 45) then Ascii.ascii_of_nat 95 else c)
             (undashed rest)
  end.

Fixpoint dash_conversion (name : string) (items : DataIO.ConfigBox) : option DataIO.yaml :=
  match items with
  | [] => None
  | (k, v) :: rest =>
      if decide (undashed k = name) then Some v else dash_conversion name rest
  end.

Definition fs_configs (data : string) : gmap path node :=
  {[ [] := Dir; ["configs"] := Dir; Configuration.TRAINING_CONFIG_PATH := File data ]}.

(** A data directory with two CSV files and the tables they parse to. *)
Definition fs_data : gmap path node :=
  {[ [] := Dir; ["data"] := Dir;
     ["a.csv"; "data"] := File "price 1";
     ["b.csv"; "data"] := File "price 2";
     ["notes.txt"; "data"] := File "n" ]}.

Definition csv_parser : string → option DataFrame :=
  λ data,
    if decide (data = "price 1") then Some {| columns := ["price"]; rows := [["1"]] |}
    else if decide (data = "price 2") then Some {| columns := ["price"]; rows := [["2"]] |}
    else None.

(** The sample directory and a reachable, empty database. *)
Definition world_data : world :=
  set_db (Some ∅) (world_of fs_data).

Definition ingestion_config : DataIO.ConfigBox :=
  [("database", DataIO.YMap [("table_name", DataIO.YStr "flight_prices");
                             ("data_dir", DataIO.YStr "data")])].

End Samples.


(* ===================================================================== *)
(** ** Scripts that print *)
(* ===================================================================== *)

(** [p.touch()]: an existing entry only gets a new modification time, a
    missing one is created empty. *)
Definition Path_touch (p : path) : M unit :=
  f ← get_fs;
  match f !! p with
  | Some _ => mret tt
  | None =>
      match f !! parent p, p with
      | Some Dir, _ :: _ => modify_fs <[p := File ""]>
      | _, _ => raise (OSError (missing_errno f p) p)
      end
  end.


(** The line feed. *)
Definition LF : string := String (Ascii.ascii_of_nat 10) "".

Module Stdout.

(** Statements of a script that prints: the world together with the
    lines written to standard output so far. *)
Definition P (A : Type) : Type :=
  world * list string → outcome A * (world * list string).

Global Instance P_ret : MRet P := λ A a s, (Ret a, s).
Global Instance P_bind : MBind P := λ A B f m s,
  match m s with
  | (Ret a, s') => f a s'
  | (Raise e, s') => (Raise e, s')
  end.

Definition lift {A} (m : M A) : P A := λ s,
  let '(r, w') := m s.1 in (r, (w', s.2)).

(** [print(line)] *)
Definition print (line : string) : P unit := λ s,
  (Ret tt, (s.1, s.2 ++ [line])).

End Stdout.

(* ===================================================================== *)
(** ** config/entity_config.py and the accessor of config/configuration.py *)
(* ===================================================================== *)

Module EntityConfig.

Record DataIngestionConfig := {
  raw_data_path : path
}.

End EntityConfig.

Module ConfigurationAccess.
Import DataIO Configuration EntityConfig.

Section externals.

Variable box_conversion : string → ConfigBox → option yaml.

(** [ConfigurationManager.get_data_ingestion_config] *)
Definition get_data_ingestion_config (self : ConfigurationManager) : M DataIngestionConfig :=
  config ← getattr box_conversion (YMap (config self)) "data_ingestion";
  raw_data_path ← getattr box_conversion config "raw_data_path";
  p ← Path raw_data_path;
  mret {| raw_data_path := p |}.

End externals.

End ConfigurationAccess.

(* ===================================================================== *)
(** ** scripts/data_acquisition.py, the entry point *)
(* ===================================================================== *)

Module DataAcquisitionMain.
Import DataAcquisition.

Section externals.

Variable gdown_download : string → path → gmap path node → outcome unit * gmap path node.
Variable zip_infolist : string → option (list zip_member).

(** The [__main__] block, for the configuration object it builds. *)
Definition main (data_acquisition_config : DataAcquisitionConfig) : M unit :=
  download_zip gdown_download data_acquisition_config;;
  extract_all zip_infolist data_acquisition_config.

End externals.

End DataAcquisitionMain.

(* ===================================================================== *)
(** ** components/data_ingestion.py *)
(* ===================================================================== *)

Module DataIngestion.
Import DataIO Configuration EntityConfig ConfigurationAccess LoggingSetup Exception.

(** What can reach a caller: a plain exception or a [CustomException]
    built around an earlier one. *)
Inductive error :=
| Plain (e : exn)
| Enriched (c : @CustomException error).

(** Statements that fail with an [error]. *)
Definition ME (A : Type) : Type := world → (error + A) * world.

Global Instance ME_ret : MRet ME := λ A a w, (inr a, w).
Global Instance ME_bind : MBind ME := λ A B f m w,
  match m w with
  | (inr a, w') => f a w'
  | (inl e, w') => (inl e, w')
  end.

Definition lift {A} (m : M A) : ME A := λ w,
  match m w with
  | (Ret a, w') => (inr a, w')
  | (Raise e, w') => (inl (Plain e), w')
  end.

(** The process environment after [load_dotenv()]. *)
Record environ := {
  DB_USER : option string;
  DB_PASSWORD : option string;
  DB_HOST : option string;
  DB_PORT : option string;
  DB_NAME : option string
}.

(** An [os.getenv] result inside an f-string. *)
Definition fstr (v : option string) : string := default "None" v.

Definition RAW_FILE : string := "flight_price.csv".
Definition DATA_INGESTION_LOGGER : string := "Data Ingestion".
Definition DATA_INGESTION_LOG_FILE : string := "data_ingestion.log".
Definition LOGS_DIR : path := ["logs"].

Record DataIngestion := {
  config : DataIngestionConfig
}.

(** [s] without the prefix [pre], if it starts with it. *)
Fixpoint strip_prefix (pre s : string) : option string :=
  match pre, s with
  | EmptyString, _ => Some s
  | String a pre', String b s' => if Ascii.eqb a b then strip_prefix pre' s' else None
  | String _ _, EmptyString => None
  end.

(** [pd.read_sql(sql=, con=engine)] for the statements
    [SELECT * FROM <table>]. *)
Definition pd_read_sql (sql : string) (con : string) : M DataFrame := λ w,
  match db w with
  | None => (Raise OperationalError, w)
  | Some tables =>
      match strip_prefix "SELECT * FROM " sql with
      | Some table =>
          match tables !! table with
          | Some df => (Ret df, w)
          | None => (Raise (LibraryError "ProgrammingError: table does not exist"), w)
          end
      | None => (Raise (LibraryError "ProgrammingError: statement not understood"), w)
      end
  end.

Section externals.

(** Python's [str] on the built-in and library exceptions. *)
Variable str_exn : exn → string.

(** [e.__traceback__] as the handler that catches [e] sees it. *)
Variable traceback_of : error → traceback.

(** [sqlalchemy.create_engine(url)]: the URL is parsed, nothing is sent. *)
Variable create_engine : string → outcome unit.

(** The text [df.to_csv(path, index=False)] writes. *)
Variable to_csv_text : DataFrame → string.

(** The times at which the successive log records are made. *)
Variable clock : nat → string.

(** The process environment. *)
Variable env : environ.

(** [str(e)] *)
Definition str_error (e : error) : string :=
  match e with
  | Plain x => str_exn x
  | Enriched c => CustomException_str c
  end.

(** [raise CustomException(e, sys)] inside [except Exception as e]. *)
Definition raise_CustomException {A} (e : error) : ME A := λ w,
  match CustomException_init str_error e {| exc_info := Some (traceback_of e) |} w with
  | (Ret c, w') => (inl (Enriched c), w')
  | (Raise x, w') => (inl (Plain x), w')
  end.

(** [try: body except Exception as e: raise CustomException(e, sys)] *)
Definition try_CustomException {A} (body : ME A) : ME A := λ w,
  match body w with
  | (inr a, w') => (inr a, w')
  | (inl e, w') => raise_CustomException e w'
  end.

(** [logger.info(msg)] on the module's logger, as the [i]-th record. *)
Definition logger_info (logger : nat) (i : nat) (msg : string) : ME unit :=
  lift (Logger_info logger DATA_INGESTION_LOGGER
          {| asctime := clock i; module := "data_ingestion"; message := msg |}).

(** [df.to_csv(file_path, index=False)] *)
Definition to_csv (df : DataFrame) (file_path : path) : M unit :=
  write_file file_path (to_csv_text df).

(** [DataIngestion._get_db_engine]; the engine is known by its URL. *)
Definition _get_db_engine (self : DataIngestion) : ME string :=
  try_CustomException
    (let url :=
       "mysql+pymysql://" +:+ fstr (DB_USER env) +:+ ":" +:+ fstr (DB_PASSWORD env)
       +:+ "@" +:+ fstr (DB_HOST env) +:+ ":" +:+ fstr (DB_PORT env)
       +:+ "/" +:+ fstr (DB_NAME env) in
     lift (λ w, (create_engine url, w));;
     mret url).

(** [DataIngestion.load_data_from_db] *)
Definition load_data_from_db (logger : nat) (self : DataIngestion) : ME unit :=
  try_CustomException
    (logger_info logger 0 "Looking for DB engine...";;
     engine ← _get_db_engine self;
     logger_info logger 1 "DB connection established";;
     let query := "SELECT * FROM flight_prices" in
     logger_info logger 2 "Reading data from DB...";;
     df ← lift (pd_read_sql query engine);
     logger_info logger 3 "Data loaded";;
     logger_info logger 4 "Saving snapshot of raw data...";;
     let file_path := joinpath (raw_data_path (config self)) RAW_FILE in
     lift (to_csv df file_path);;
     logger_info logger 5 "Snapshot of raw data saved").

End externals.

End DataIngestion.

(* ===================================================================== *)
(** ** template.py *)
(* ===================================================================== *)

Module Template.
Import DataIO Stdout.

Definition PROJECT_NAME : string := "flight_price_predictor".

Definition folders : list string :=
  [ "configs";
    "notebooks/helpers";
    "src/" +:+ PROJECT_NAME +:+ "/core";
    "src/" +:+ PROJECT_NAME +:+ "/utils";
    "src/" +:+ PROJECT_NAME +:+ "/config";
    "src/" +:+ PROJECT_NAME +:+ "/components";
    "src/" +:+ PROJECT_NAME +:+ "/transformers";
    "src/" +:+ PROJECT_NAME +:+ "/pipeline" ].

(** The dictionary, in insertion order. *)
Definition placeholder_files : list (string * list string) :=
  [ ("configs", ["training-config.yaml"; "inference-config.yaml"; "schema-raw.yaml"; "params.yaml"]);
    ("notebooks/helpers", ["data_io_utilities.py"; "data_diagnostics.py"; "eda_helpers.py"]);
    ("notebooks", [".gitkeep"]);
    ("src/" +:+ PROJECT_NAME, ["__init__.py"]);
    ("src/" +:+ PROJECT_NAME +:+ "/core",
       ["__init__.py"; "constants.py"; "logging_setup.py"; "exception.py"]);
    ("src/" +:+ PROJECT_NAME +:+ "/utils", ["__init__.py"; "data_io.py"]);
    ("src/" +:+ PROJECT_NAME +:+ "/config", ["__init__.py"; "entity_config.py"; "configuration.py"]);
    ("src/" +:+ PROJECT_NAME +:+ "/components",
       ["__init__.py"; "data_ingestion.py"; "data_validation.py"; "data_cleaning.py";
        "data_transformation.py"; "model_trainer.py"; "model_evaluation.py"]);
    ("src/" +:+ PROJECT_NAME +:+ "/transformers", ["__init__.py"]);
    ("src/" +:+ PROJECT_NAME +:+ "/pipeline", ["__init__.py"; "inference_pipeline.py"]);
    ("", ["app.py"; "setup.py"; ".gitignore"; "LICENSE"; "README.md"; "environment-dev.yaml";
          "environment-prod.yaml"; "requirements.txt"; "pyproject.toml"; "dvc.yaml"]) ].

(** [Path(folder) / filename if folder else Path(filename)] *)
Definition placeholder_path (folder filename : string) : path :=
  if decide (folder = "") then Path_of_str filename
  else Path_of_str filename ++ Path_of_str folder.

(** The first loop, over any list of folders. *)
Fixpoint create_folders (folders : list string) : P unit :=
  match folders with
  | [] => mret tt
  | folder :: rest =>
      let path := Path_of_str folder in
      lift (Path_mkdir path);;
      print ("Created folder: " +:+ path_str path);;
      create_folders rest
  end.

(** The inner loop of the second one. *)
Fixpoint create_files (folder : string) (files : list string) : P unit :=
  match files with
  | [] => mret tt
  | filename :: rest =>
      let path := placeholder_path folder filename in
      e ← lift (Path_exists path);
      (if e : bool then mret tt
       else lift (Path_touch path);;
            print ("Created placeholder file: " +:+ path_str path));;
      create_files folder rest
  end.

(** The second loop, over any list of items. *)
Fixpoint create_placeholders (items : list (string * list string)) : P unit :=
  match items with
  | [] => mret tt
  | (folder, files) :: rest => create_files folder files;; create_placeholders rest
  end.

(** The script. *)
Definition template : P unit :=
  create_folders folders;;
  create_placeholders placeholder_files;;
  print (LF +:+ "Project scaffold created successfully!");;
  print "Next steps:";;
  print "1. Start notebook experimentation";;
  print "2. Add modular scripts to src";;
  print "3. Orchestrate and evaluate entire ML pipeline";;
  print "4. Document project flow".

(** The paths the two loops go through. *)
Definition folder_paths (folders : list string) : list path :=
  Path_of_str <$> folders.

Definition placeholder_paths (items : list (string * list string)) : list path :=
  items ≫= λ item, placeholder_path item.1 <$> item.2.

End Template.

(* ===================================================================== *)
(** ** notebooks/helpers/data_diagnostics.py, [check_duplicates] *)
(* ===================================================================== *)

Module DataDiagnostics.
Import Stdout.

(** [df.duplicated()] with the default [keep="first"]: a row is marked
    when an equal row stands before it. *)
Fixpoint duplicated_from (seen : list (list string)) (rows : list (list string)) : list bool :=
  match rows with
  | [] => []
  | r :: rest => bool_decide (r ∈ seen) :: duplicated_from (r :: seen) rest
  end.

(** A frame without columns is empty for pandas, as one without rows
    is, and [duplicated] answers an empty frame with an empty series. *)
Definition duplicated (df : DataFrame) : list bool :=
  if decide (columns df = []) then [] else duplicated_from [] (rows df).

(** [.sum()] of a boolean series *)
Definition sum_bool (s : list bool) : nat :=
  length (filter (λ b, b = true) s).

Definition check_duplicates (df : DataFrame) (return_count : bool) : P (option nat) :=
  let n_duplicates := sum_bool (duplicated df) in
  (if decide (0 < n_duplicates) then
     print ("There are " +:+ pretty n_duplicates +:+ " duplicate entries in the data.")
   else
     print "There are no duplicate records in the data.");;
  if return_count then mret (Some n_duplicates) else mret None.

End DataDiagnostics.


(* ===================================================================== *)
(** ** More relations between worlds *)
(* ===================================================================== *)

(** Whatever exists stays as it is. *)
Definition entries_kept : relation world :=
  λ w w', ∀ q n, fs w !! q = Some n → fs w' !! q = Some n.

(** Only the file system changes, and only by directories that are new. *)
Definition only_new_dirs : relation world :=
  λ w w', only_fs w w'
    ∧ entries_kept w w'
    ∧ ∀ q n, fs w !! q = None → fs w' !! q = Some n → n = Dir.

(** No call of [gdown.download] is added to the trace. *)
Definition no_new_fetch : relation world :=
  λ w w', ∀ url output, EvFetch url output ∈ trace w' → EvFetch url output ∈ trace w.

(** Everything but the database is as before. *)
Definition only_db : relation world :=
  λ w w', w' = set_db (db w') w.

(** The file at [t] keeps the content [data]. *)
Definition file_kept (t : path) (data : string) : relation world :=
  λ w w', fs w !! t = Some (File data) → fs w' !! t = Some (File data).

(** Whatever exists outside the tree of [dest] stays as it is. *)
Definition outside_kept (dest : path) : relation world :=
  λ w w', ∀ q n, fs w !! q = Some n → ¬ dest `suffix_of` q → fs w' !! q = Some n.

(** A database that cannot be reached stays out of reach. *)
Definition db_stays_down : relation world :=
  λ w w', db w = None → w' = w.

(** The database is as before and files only grow at their end. *)
Definition files_grow : relation world :=
  λ w w', db w' = db w
    ∧ ∀ q data, fs w !! q = Some (File data) →
                ∃ more, fs w' !! q = Some (File (data +:+ more)).

(** [preserves] for the statements of [DataIngestion]. *)
Definition preservesE (R : relation world) {A} (m : DataIngestion.ME A) : Prop :=
  ∀ w r w', m w = (r, w') → R w w'.

(** The database is as before. *)
Definition db_kept : relation world :=
  λ w w', db w' = db w.

(** Only the file system changes, and only by new directories and new
    empty files. *)
Definition only_new_entries : relation world :=
  λ w w', only_fs w w'
    ∧ entries_kept w w'
    ∧ ∀ q n, fs w !! q = None → fs w' !! q = Some n → n = Dir ∨ n = File "".

(** [preserves] for the scripts that print: the lines already printed
    stay. *)
Definition preservesP (R : relation world) {A} (m : Stdout.P A) : Prop :=
  ∀ s r s', m s = (r, s') → R s.1 s'.1 ∧ s.2 `prefix_of` s'.2.

(* ===================================================================== *)
(** ** More sample inputs *)
(* ===================================================================== *)

Module MoreSamples.
Import Samples.

(** The archive is there, and empty. *)
Definition fs_empty_archive : gmap path node :=
  <[ ["a.zip"; "tmp"] := File "" ]> fs_tmp.


Definition app_log : path := ["app.log"; "logs"].



(** What [DataIngestion] needs from outside. *)
Definition str_exn : exn → string :=
  λ e, match e with
       | OperationalError => "(pymysql.err.OperationalError) Can't connect to MySQL server"
       | LibraryError msg => msg
       | _ => "error"
       end.

Definition traceback_of : DataIngestion.error → Exception.traceback :=
  λ e, match e with
       | DataIngestion.Plain _ =>
           {| Exception.co_filename := "data_ingestion.py"; Exception.tb_lineno := 52 |}
       | DataIngestion.Enriched _ =>
           {| Exception.co_filename := "data_ingestion.py"; Exception.tb_lineno := 48 |}
       end.

Definition engine_for_any_url : string → outcome unit := λ _, Ret tt.


Definition csv_text : DataFrame → string :=
  λ df, String.concat LF (String.concat "," <$> (columns df :: rows df)).

Definition midnight : nat → string := λ _, "2025-01-01 00:00:00".

Definition local_env : DataIngestion.environ :=
  {| DataIngestion.DB_USER := Some "root"; DataIngestion.DB_PASSWORD := Some "secret";
     DataIngestion.DB_HOST := Some "localhost"; DataIngestion.DB_PORT := Some "3306";
     DataIngestion.DB_NAME := Some "flights" |}.

Definition ingestion_log : path :=
  DataIngestion.DATA_INGESTION_LOG_FILE :: DataIngestion.LOGS_DIR.

Definition raw_dir : path := ["raw"; "artifacts"].

Definition ingestion : DataIngestion.DataIngestion :=
  {| DataIngestion.config := {| EntityConfig.raw_data_path := raw_dir |} |}.

Definition prices : DataFrame :=
  {| columns := ["airline"; "price"]; rows := [["IndiGo"; "3897"]; ["Air India"; "7662"]] |}.


(** The same, with a logger that appends to the snapshot file itself. *)
Definition snapshot_path : path := DataIngestion.RAW_FILE :: raw_dir.

Definition world_log_in_snapshot : world :=
  World {[ [] := Dir; ["artifacts"] := Dir; raw_dir := Dir; snapshot_path := File "old" ]}
        []
        {[ DataIngestion.DATA_INGESTION_LOGGER := 0 ]}
        {[ 0 := LoggingSetup.project_logger snapshot_path ModeA ]}
        1 [] (Some {[ "flight_prices" := prices ]}).

End MoreSamples.

(* ===================================================================== *)
(** * Part II: properties *)
(* ===================================================================== *)

(** ** The monad *)

Lemma bind_Ret {A B} (m : M A) (k : A → M B) w a w' :
  m w = (Ret a, w') → (m ≫= k) w = k a w'.
Proof. intros H. unfold mbind, M_bind. by rewrite H. Qed.

Lemma bind_Raise {A B} (m : M A) (k : A → M B) w e w' :
  m w = (Raise e, w') → (m ≫= k) w = (Raise e, w').
Proof. intros H. unfold mbind, M_bind. by rewrite H. Qed.

(** [except Exception as e: raise] changes nothing. *)
Lemma try_except_reraise {A} (m : M A) w :
  try_except m (λ e, raise e) w = m w.
Proof. unfold try_except, raise. by destruct (m w) as [[a|e] w']. Qed.

Ltac unfold_M :=
  unfold mbind, M_bind, mret, M_ret, raise, try_except, get_fs, modify_fs, emit,
    py_and, py_not in *.

(** ** The file system *)

Lemma os_stat_Some p n w : fs w !! p = Some n → os_stat p w = (Ret n, w).
Proof. intros H. unfold os_stat. unfold_M. by rewrite H. Qed.

Lemma os_stat_None p w :
  fs w !! p = None → os_stat p w = (Raise (OSError (missing_errno (fs w) p) p), w).
Proof. intros H. unfold os_stat. unfold_M. by rewrite H. Qed.

Lemma Path_exists_eq p w :
  Path_exists p w = (Ret (bool_decide (is_Some (fs w !! p))), w).
Proof. reflexivity. Qed.

Lemma wf_fs_parent f p : wf_fs f → is_Some (f !! p) → f !! parent p = Some Dir.
Proof. intros [H0 H] [n Hp]. by apply (H p n). Qed.

Lemma os_mkdir_exists p n w :
  fs w !! p = Some n → os_mkdir p w = (Raise (OSError EEXIST p), w).
Proof. intros H. unfold os_mkdir. unfold_M. by rewrite H. Qed.

(** Creating a directory that is already there does nothing. *)
Lemma Path_mkdir_Dir p w : fs w !! p = Some Dir → Path_mkdir p w = (Ret tt, w).
Proof.
  intros H. destruct p; simpl; unfold try_except;
    rewrite (os_mkdir_exists _ _ _ H); unfold Path_is_dir; unfold_M;
    by rewrite bool_decide_eq_true_2.
Qed.

(** ** Effects that respect a relation between worlds *)

Section preserves.
Context (R : relation world) `{!PreOrder R}.

Lemma preserves_mret {A} (a : A) : preserves R (mret a).
Proof. intros w r w' [= _ <-]. reflexivity. Qed.

Lemma preserves_raise {A} e : preserves R (@raise A e).
Proof. intros w r w' [= _ <-]. reflexivity. Qed.

Lemma preserves_get_fs : preserves R get_fs.
Proof. intros w r w' [= _ <-]. reflexivity. Qed.

Lemma preserves_bind {A B} (m : M A) (k : A → M B) :
  preserves R m → (∀ a, preserves R (k a)) → preserves R (m ≫= k).
Proof.
  intros Hm Hk w r w'. unfold mbind, M_bind.
  destruct (m w) as [[a|e] w1] eqn:E; intros H.
  - etrans; [by eapply Hm | by eapply Hk].
  - injection H as _ <-. by eapply Hm.
Qed.

Lemma preserves_try_except {A} (m : M A) (h : exn → M A) :
  preserves R m → (∀ e, preserves R (h e)) → preserves R (try_except m h).
Proof.
  intros Hm Hh w r w'. unfold try_except.
  destruct (m w) as [[a|e] w1] eqn:E; intros H.
  - injection H as _ <-. by eapply Hm.
  - etrans; [by eapply Hm | by eapply Hh].
Qed.

Lemma preserves_if {A} (b : bool) (m1 m2 : M A) :
  preserves R m1 → preserves R m2 → preserves R (if b then m1 else m2).
Proof. by destruct b. Qed.

End preserves.

Lemma preserves_mono (R R' : relation world) {A} (m : M A) :
  (∀ w w', R w w' → R' w w') → preserves R m → preserves R' m.
Proof. intros HR Hm w r w' H. eapply HR, Hm, H. Qed.

(** *** Directories stay *)

Global Instance dirs_kept_preorder : PreOrder dirs_kept.
Proof. split; [by intros w q | intros w1 w2 w3 H12 H23 q Hq; eauto]. Qed.

(** *** Only the file system changes, and only by new directories on the
        way to [p] *)

Global Instance only_fs_preorder : PreOrder only_fs.
Proof.
  split; [by intros [] |].
  intros w1 w2 w3 H12 H23. unfold only_fs in *. rewrite H23 at 1. by rewrite H12 at 1.
Qed.

Global Instance mkdir_towards_preorder p : PreOrder (mkdir_towards p).
Proof.
  split.
  - intros w. split; [reflexivity |]. split; [done | congruence].
  - intros w1 w2 w3 (Ha1 & Ha2 & Ha3) (Hb1 & Hb2 & Hb3).
    split; [by etrans |]. split; [eauto |].
    intros q n Hq1 Hq3. destruct (fs w2 !! q) as [n2|] eqn:E2.
    + rewrite (Hb2 _ _ E2) in Hq3. injection Hq3 as <-. eauto.
    + eauto.
Qed.

Lemma mkdir_towards_suffix p p' w w' :
  p `suffix_of` p' → mkdir_towards p w w' → mkdir_towards p' w w'.
Proof.
  intros Hs (H1 & H2 & H3). split; [done |]. split; [done |].
  intros q n Hq Hq'. destruct (H3 _ _ Hq Hq') as [-> ?]. split; [done | by etrans].
Qed.

Lemma mkdir_towards_dirs_kept p w w' : mkdir_towards p w w' → dirs_kept w w'.
Proof. intros (_ & H & _) q. apply H. Qed.

Lemma os_mkdir_towards p : preserves (mkdir_towards p) (os_mkdir p).
Proof.
  intros w r w'. unfold os_mkdir. unfold_M.
  destruct (fs w !! p) eqn:Ep; [intros [= _ <-]; reflexivity |].
  destruct (fs w !! parent p) as [[|]|], p as [|x q];
    try (intros [= _ <-]; reflexivity).
  intros [= _ <-]. split; [done |]. simpl. split.
  - intros q' n Hq'. rewrite lookup_insert_ne; [done | congruence].
  - intros q' n Hq'. rewrite lookup_insert. case_decide; [| congruence].
    intros [= <-]. by subst.
Qed.

Lemma Path_is_dir_same p w : Path_is_dir p w = (Ret (bool_decide (fs w !! p = Some Dir)), w).
Proof. reflexivity. Qed.

Lemma Path_mkdir_exist_ok_towards p : preserves (mkdir_towards p) (Path_mkdir_exist_ok p).
Proof.
  apply preserves_try_except; [apply _ | apply os_mkdir_towards |].
  intros e w r w'. destruct e as [[] ?| | | | | | | | | | | |];
    try (intros [= _ <-]; reflexivity);
    rewrite (bind_Ret _ _ _ _ _ (Path_is_dir_same _ _));
    case_bool_decide; intros [= _ <-]; reflexivity.
Qed.

Lemma Path_mkdir_towards p : preserves (mkdir_towards p) (Path_mkdir p).
Proof.
  induction p as [|x q IH].
  - apply preserves_try_except; [apply _ | apply os_mkdir_towards |].
    intros e w r w'. destruct e as [[] ?| | | | | | | | | | | |];
      try (intros [= _ <-]; reflexivity);
      rewrite (bind_Ret _ _ _ _ _ (Path_is_dir_same _ _));
      case_bool_decide; intros [= _ <-]; reflexivity.
  - simpl. apply preserves_try_except; [apply _ | apply os_mkdir_towards |].
    intros e. destruct e as [[] ?| | | | | | | | | | | |];
      try (intros w r w'; rewrite (bind_Ret _ _ _ _ _ (Path_is_dir_same _ _));
           case_bool_decide; intros [= _ <-]; reflexivity).
    apply preserves_bind; [apply _ | |].
    + eapply preserves_mono; [| exact IH].
      intros w w'. apply mkdir_towards_suffix. by apply suffix_cons_r.
    + intros _. apply Path_mkdir_exist_ok_towards.
Qed.

(** A successful [mkdir] leaves a directory at [p]. *)
Lemma os_mkdir_Ret p w w' : os_mkdir p w = (Ret tt, w') → fs w' !! p = Some Dir.
Proof.
  unfold os_mkdir. unfold_M. destruct (fs w !! p); [done |].
  destruct (fs w !! parent p) as [[|]|], p as [|x q]; try done.
  intros [= <-]. simpl. apply lookup_insert_eq.
Qed.

Lemma Path_mkdir_exist_ok_Ret p w w' :
  Path_mkdir_exist_ok p w = (Ret tt, w') → fs w' !! p = Some Dir.
Proof.
  unfold Path_mkdir_exist_ok, try_except.
  destruct (os_mkdir p w) as [[[]|e] w1] eqn:E.
  - intros [= <-]. by eapply os_mkdir_Ret.
  - destruct e as [[] ?| | | | | | | | | | | |]; try done;
      rewrite (bind_Ret _ _ _ _ _ (Path_is_dir_same _ _));
      case_bool_decide; try done; by intros [= <-].
Qed.

Lemma Path_mkdir_Ret p w w' : Path_mkdir p w = (Ret tt, w') → fs w' !! p = Some Dir.
Proof.
  destruct p as [|x q]; simpl; unfold try_except.
  - destruct (os_mkdir [] w) as [[[]|e] w1] eqn:E.
    + intros [= <-]. by eapply os_mkdir_Ret.
    + destruct e as [[] ?| | | | | | | | | | | |]; try done;
        rewrite (bind_Ret _ _ _ _ _ (Path_is_dir_same _ _));
        case_bool_decide; try done; by intros [= <-].
  - destruct (os_mkdir (x :: q) w) as [[[]|e] w1] eqn:E.
    + intros [= <-]. by eapply os_mkdir_Ret.
    + destruct e as [[] ?| | | | | | | | | | | |]; try done;
        try (rewrite (bind_Ret _ _ _ _ _ (Path_is_dir_same _ _));
             case_bool_decide; try done; by intros [= <-]).
      unfold mbind, M_bind. destruct (Path_mkdir q w1) as [[[]|e] w2]; [| done].
      apply Path_mkdir_exist_ok_Ret.
Qed.

(** *** The file-system calls keep the file system well formed *)

Global Instance wf_kept_preorder : PreOrder wf_kept.
Proof. split; [intros w H; exact H | intros w1 w2 w3 H12 H23 H; apply H23, H12, H]. Qed.

Lemma wf_fs_insert f p n :
  wf_fs f →
  f !! parent p = Some Dir →
  n = Dir ∨ (p ≠ [] ∧ f !! p ≠ Some Dir) →
  wf_fs (<[p := n]> f).
Proof.
  intros [Hroot Hall] Hpar Hn. split.
  - rewrite lookup_insert. case_decide; [| done]. subst. destruct Hn as [-> | [? _]]; done.
  - intros q m. rewrite lookup_insert. case_decide as Hqp.
    + subst q. intros [= <-]. rewrite lookup_insert. case_decide as Hpp; [| done].
      destruct Hn as [-> | [_ Hnd]]; [done |]. rewrite <- Hpp in Hpar. done.
    + intros Hq. specialize (Hall q m Hq). simpl in Hall.
      rewrite lookup_insert. case_decide as Hpq; [| done].
      destruct Hn as [-> | [_ Hnd]]; [done |]. rewrite <- Hpq in Hall. done.
Qed.

Lemma os_mkdir_wf p : preserves wf_kept (os_mkdir p).
Proof.
  intros w r w'. unfold os_mkdir. unfold_M.
  destruct (fs w !! p) eqn:Ep; [intros [= _ <-]; reflexivity |].
  destruct (fs w !! parent p) as [[|]|] eqn:Epar, p as [|x q];
    try (intros [= _ <-]; reflexivity).
  intros [= _ <-] Hwf. simpl. apply wf_fs_insert; auto.
Qed.

Lemma Path_mkdir_exist_ok_wf p : preserves wf_kept (Path_mkdir_exist_ok p).
Proof.
  apply preserves_try_except; [apply _ | apply os_mkdir_wf |].
  intros e w r w'. destruct e as [[] ?| | | | | | | | | | | |];
    try (intros [= _ <-]; reflexivity);
    rewrite (bind_Ret _ _ _ _ _ (Path_is_dir_same _ _));
    case_bool_decide; intros [= _ <-]; reflexivity.
Qed.

Lemma Path_mkdir_wf p : preserves wf_kept (Path_mkdir p).
Proof.
  induction p as [|x q IH].
  - apply preserves_try_except; [apply _ | apply os_mkdir_wf |].
    intros e w r w'. destruct e as [[] ?| | | | | | | | | | | |];
      try (intros [= _ <-]; reflexivity);
      rewrite (bind_Ret _ _ _ _ _ (Path_is_dir_same _ _));
      case_bool_decide; intros [= _ <-]; reflexivity.
  - simpl. apply preserves_try_except; [apply _ | apply os_mkdir_wf |].
    intros e. destruct e as [[] ?| | | | | | | | | | | |];
      try (intros w r w'; rewrite (bind_Ret _ _ _ _ _ (Path_is_dir_same _ _));
           case_bool_decide; intros [= _ <-]; reflexivity).
    apply preserves_bind; [apply _ | exact IH | intros _; apply Path_mkdir_exist_ok_wf].
Qed.

Lemma open_for_write_wf p mode : preserves wf_kept (open_for_write p mode).
Proof.
  intros w r w'. unfold open_for_write. unfold_M.
  destruct (fs w !! p) as [[data|]|] eqn:Ep.
  - destruct mode; intros [= _ <-]; [| reflexivity].
    intros Hwf. simpl. apply wf_fs_insert; [done | by eapply wf_fs_parent |].
    right. split; [| congruence]. intros ->. destruct Hwf as [Hroot _]. congruence.
  - intros [= _ <-]. reflexivity.
  - destruct (fs w !! parent p) as [[|]|] eqn:Epar, p as [|x q];
      try (intros [= _ <-]; reflexivity).
    intros [= _ <-] Hwf. simpl. apply wf_fs_insert; [done | done |].
    right. split; [done | congruence].
Qed.

Lemma stream_write_wf p text : preserves wf_kept (stream_write p text).
Proof.
  intros w r w' [= _ <-] Hwf. simpl.
  destruct (fs w !! p) as [[data|]|] eqn:Ep; try done.
  apply wf_fs_insert; [done | by eapply wf_fs_parent |].
  right. split; [| congruence]. intros ->. destruct Hwf as [Hroot _]. congruence.
Qed.

(** *** When the directory creation succeeds *)

Lemma os_mkdir_Raise_same p w e w' : os_mkdir p w = (Raise e, w') → w' = w.
Proof.
  unfold os_mkdir. unfold_M. destruct (fs w !! p); [by intros [= _ <-] |].
  destruct (fs w !! parent p) as [[|]|], p as [|x q]; try done; by intros [= _ <-].
Qed.

Lemma missing_errno_ENOENT f p :
  (∀ q d, q `suffix_of` p → f !! q ≠ Some (File d)) → missing_errno f p = ENOENT.
Proof.
  induction p as [|x q IH]; intros Hno; simpl; [done |].
  destruct (f !! q) as [[d|]|] eqn:E; [| done |].
  - destruct (Hno q d); [by apply suffix_cons_r | done].
  - apply IH. intros q' d Hs. apply Hno. by apply suffix_cons_r.
Qed.

(** [p.mkdir(parents=True, exist_ok=True)] returns whenever neither [p]
    nor a directory above it is taken by a regular file. *)
Lemma Path_mkdir_succeeds p w :
  fs w !! [] = Some Dir →
  (∀ q d, q `suffix_of` p → fs w !! q ≠ Some (File d)) →
  ∃ w', Path_mkdir p w = (Ret tt, w').
Proof.
  intros Hroot. induction p as [|x q IH]; intros Hno.
  { exists w. by apply Path_mkdir_Dir. }
  destruct (fs w !! (x :: q)) as [[d|]|] eqn:Ep.
  - by destruct (Hno (x :: q) d).
  - exists w. by apply Path_mkdir_Dir.
  - simpl. unfold try_except, os_mkdir. unfold_M. simpl. rewrite Ep.
    destruct (fs w !! q) as [[d|]|] eqn:Eq.
    + destruct (Hno q d); [by apply suffix_cons_r | done].
    + by eexists.
    + rewrite missing_errno_ENOENT; last first.
      { intros q' d Hs. apply Hno. by apply suffix_cons_r. }
      destruct IH as [w1 Hw1].
      { intros q' d Hs. apply Hno. by apply suffix_cons_r. }
      rewrite Hw1.
      pose proof (Path_mkdir_Ret _ _ _ Hw1) as Hq1.
      destruct (Path_mkdir_towards _ _ _ _ Hw1) as (_ & _ & Hnew).
      assert (fs w1 !! (x :: q) = None) as Ep1.
      { destruct (fs w1 !! (x :: q)) as [n|] eqn:E; [| done].
        destruct (Hnew _ _ Ep E) as [_ Hs]. apply suffix_length in Hs. simpl in Hs. lia. }
      unfold Path_mkdir_exist_ok, try_except, os_mkdir. unfold_M. simpl.
      rewrite Ep1, Hq1. by eexists.
Qed.

(** *** Only [OSError]s come out of the directory calls *)

Lemma os_mkdir_raises p w e w' : os_mkdir p w = (Raise e, w') → is_OSError e.
Proof.
  unfold os_mkdir. unfold_M. destruct (fs w !! p); [intros [= <- _]; by eexists _, _ |].
  destruct (fs w !! parent p) as [[|]|], p as [|x q]; try done;
    intros [= <- _]; by eexists _, _.
Qed.

Lemma Path_mkdir_exist_ok_raises p w e w' :
  Path_mkdir_exist_ok p w = (Raise e, w') → is_OSError e.
Proof.
  unfold Path_mkdir_exist_ok, try_except.
  destruct (os_mkdir p w) as [[[]|e1] w1] eqn:E; [done |].
  pose proof (os_mkdir_raises _ _ _ _ E) as (en & q & ->).
  destruct en; try (intros [= <- _]; by eexists _, _);
    rewrite (bind_Ret _ _ _ _ _ (Path_is_dir_same _ _));
    case_bool_decide; try done; intros [= <- _]; by eexists _, _.
Qed.

Lemma Path_mkdir_raises p w e w' : Path_mkdir p w = (Raise e, w') → is_OSError e.
Proof.
  revert w e w'. induction p as [|x q IH]; intros w e w'; simpl; unfold try_except.
  - destruct (os_mkdir [] w) as [[[]|e1] w1] eqn:E; [done |].
    pose proof (os_mkdir_raises _ _ _ _ E) as (en & q & ->).
    destruct en; try (intros [= <- _]; by eexists _, _);
      rewrite (bind_Ret _ _ _ _ _ (Path_is_dir_same _ _));
      case_bool_decide; try done; intros [= <- _]; by eexists _, _.
  - destruct (os_mkdir (x :: q) w) as [[[]|e1] w1] eqn:E; [done |].
    pose proof (os_mkdir_raises _ _ _ _ E) as (en & q' & ->).
    destruct en;
      try (rewrite (bind_Ret _ _ _ _ _ (Path_is_dir_same _ _));
           case_bool_decide; try done; intros [= <- _]; by eexists _, _).
    unfold mbind, M_bind. destruct (Path_mkdir q w1) as [[[]|e2] w2] eqn:E2.
    + apply Path_mkdir_exist_ok_raises.
    + intros [= <- _]. by eapply IH.
Qed.

Lemma only_fs_trace w w' : only_fs w w' → trace w' = trace w.
Proof. intros ->. reflexivity. Qed.

(** ** [download_zip] and [extract_all] *)

(** *** Extraction only adds *)

Lemma preserves_modify_fs_dirs g :
  (∀ f q, f !! q = Some Dir → g f !! q = Some Dir) → preserves dirs_kept (modify_fs g).
Proof. intros Hg w r w' [= _ <-] q. apply Hg. Qed.

Lemma preserves_emit (R : relation world) ev :
  (∀ w, R w (add_event ev w)) → preserves R (emit ev).
Proof. intros H w r w' [= _ <-]. apply H. Qed.

Lemma os_mkdir_dirs_kept p : preserves dirs_kept (os_mkdir p).
Proof.
  eapply preserves_mono; [| apply os_mkdir_towards]. apply mkdir_towards_dirs_kept.
Qed.

Lemma Path_exists_same (R : relation world) `{!PreOrder R} p : preserves R (Path_exists p).
Proof. intros w r w' [= _ <-]. reflexivity. Qed.

Lemma Path_is_dir_preserves (R : relation world) `{!PreOrder R} p : preserves R (Path_is_dir p).
Proof. intros w r w' [= _ <-]. reflexivity. Qed.

Lemma os_makedirs_dirs_kept p : preserves dirs_kept (os_makedirs p).
Proof.
  induction p as [|x q IH]; simpl; [apply os_mkdir_dirs_kept |].
  apply preserves_bind; [apply _ | (apply Path_exists_same; apply _) |]. intros e.
  apply preserves_bind; [apply _ | | intros _; apply os_mkdir_dirs_kept].
  destruct e; [(apply preserves_mret; apply _) |].
  apply preserves_try_except; [apply _ | done |].
  intros []; try (apply preserves_raise; apply _).
  destruct e; ((apply preserves_raise; apply _) || (apply preserves_mret; apply _)).
Qed.

Lemma open_for_write_dirs_kept p mode : preserves dirs_kept (open_for_write p mode).
Proof.
  intros w r w'. unfold open_for_write. unfold_M.
  destruct (fs w !! p) as [[data|]|] eqn:Ep.
  - destruct mode; intros [= _ <-]; [| reflexivity].
    intros q Hq. simpl. rewrite lookup_insert_ne; [done | congruence].
  - intros [= _ <-]. reflexivity.
  - destruct (fs w !! parent p) as [[|]|], p as [|x q];
      try (intros [= _ <-]; reflexivity).
    intros [= _ <-] q' Hq'. simpl. rewrite lookup_insert_ne; [done | congruence].
Qed.

Lemma stream_write_dirs_kept p text : preserves dirs_kept (stream_write p text).
Proof.
  apply preserves_modify_fs_dirs. intros f q Hq.
  destruct (f !! p) as [[data|]|] eqn:Ep; try done.
  rewrite lookup_insert_ne; [done | congruence].
Qed.

Lemma write_file_dirs_kept p data : preserves dirs_kept (write_file p data).
Proof.
  apply preserves_bind; [apply _ | apply open_for_write_dirs_kept |].
  intros _. apply stream_write_dirs_kept.
Qed.

Lemma read_file_same (R : relation world) `{!PreOrder R} p : preserves R (read_file p).
Proof.
  intros w r w'. unfold read_file. unfold_M.
  destruct (fs w !! p) as [[|]|]; intros [= _ <-]; reflexivity.
Qed.

Section data_acquisition.
Import DataAcquisition.

Variable gdown_download : string → path → gmap path node → outcome unit * gmap path node.
Variable zip_infolist : string → option (list zip_member).

Lemma exists_and_nonempty_eq p w :
  exists_and_nonempty p w =
    (Ret (match fs w !! p with Some n => (0 <? st_size n)%N | None => false end), w).
Proof.
  unfold exists_and_nonempty, py_and, os_stat. unfold_M. simpl.
  destruct (fs w !! p) as [n|] eqn:E.
  - rewrite bool_decide_eq_true_2 by eauto. by rewrite E.
  - rewrite bool_decide_eq_false_2; [done | by intros []].
Qed.

(** What the guard [not p.exists() and p.stat().st_size == 0] computes:
    false when the path exists, the error of [stat] when it does not. *)
Lemma missing_and_empty_eq p w :
  missing_and_empty p w =
    (match fs w !! p with
     | Some _ => Ret false
     | None => Raise (OSError (missing_errno (fs w) p) p)
     end, w).
Proof.
  unfold missing_and_empty, py_and, py_not, os_stat. unfold_M. simpl.
  destruct (fs w !! p) as [n|] eqn:E.
  - rewrite bool_decide_eq_true_2 by eauto. done.
  - rewrite bool_decide_eq_false_2; [| by intros []]. simpl. by rewrite E.
Qed.

Lemma extract_member_dirs_kept dest m : preserves dirs_kept (extract_member dest m).
Proof.
  unfold extract_member.
  apply preserves_bind; [apply _ | (apply Path_exists_same; apply _) |]. intros e.
  apply preserves_bind; [apply _ | |].
  { destruct e; [(apply preserves_mret; apply _) | apply os_makedirs_dirs_kept]. }
  intros _. destruct (body m).
  - apply write_file_dirs_kept.
  - apply preserves_bind; [apply _ | (apply Path_is_dir_preserves; apply _) |].
    intros []; [(apply preserves_mret; apply _) | apply os_mkdir_dirs_kept].
Qed.

Lemma extractall_dirs_kept members dest : preserves dirs_kept (extractall members dest).
Proof.
  induction members as [|m rest IH]; simpl; [(apply preserves_mret; apply _) |].
  apply preserves_bind; [apply _ | apply extract_member_dirs_kept | done].
Qed.

Lemma ZipFile_dirs_kept p : preserves dirs_kept (ZipFile zip_infolist p).
Proof.
  unfold ZipFile.
  apply preserves_bind; [apply _ | apply preserves_emit; by intros w q |]. intros _.
  apply preserves_bind; [apply _ | (apply read_file_same; apply _) |]. intros data.
  destruct (zip_infolist data); [(apply preserves_mret; apply _) | (apply preserves_raise; apply _)].
Qed.

Lemma extract_all_eq config w :
  extract_all zip_infolist config w =
    (Path_mkdir (extract_dir config);; validate_and_extract zip_infolist config) w.
Proof. unfold extract_all. by rewrite try_except_reraise. Qed.

Lemma validate_and_extract_dirs_kept config :
  preserves dirs_kept (validate_and_extract zip_infolist config).
Proof.
  unfold validate_and_extract.
  apply preserves_bind; [apply _ | |].
  { intros w r w'. rewrite missing_and_empty_eq. intros [= _ <-]. reflexivity. }
  intros bad. apply preserves_bind; [apply _ | |].
  { destruct bad; [(apply preserves_raise; apply _) | (apply preserves_mret; apply _)]. }
  intros _. apply preserves_bind; [apply _ | apply ZipFile_dirs_kept |].
  intros ms. apply extractall_dirs_kept.
Qed.

(** C1: when the archive already exists with a positive size,
    [download_zip] returns normally; the only effect is the message on
    standard output: the file system (so the archive too) is unchanged and
    [gdown.download] is not called. *)
Theorem download_zip_skips_existing (config : DataAcquisitionConfig) (w : world) (n : node) :
  wf_fs (fs w) →
  fs w !! download_file_path config = Some n →
  (0 < st_size n)%N →
  download_zip gdown_download config w = (Ret tt, add_event (EvStdoutSkip (st_size n)) w).
Proof.
  intros Hwf Hn Hsz. unfold download_zip. rewrite try_except_reraise.
  erewrite bind_Ret; last by (apply Path_mkdir_Dir, wf_fs_parent; eauto).
  unfold exists_and_nonempty, py_and.
  erewrite bind_Ret; last first.
  { erewrite bind_Ret; last apply Path_exists_eq.
    rewrite bool_decide_eq_true_2 by eauto.
    erewrite bind_Ret; last by apply os_stat_Some. reflexivity. }
  replace (0 <? st_size n)%N with true by (symmetry; by apply N.ltb_lt).
  erewrite bind_Ret; last by apply os_stat_Some. reflexivity.
Qed.

Lemma call_gdown_eq url output w :
  call_gdown gdown_download url output w =
    let '(r, f') := gdown_download url output (fs w) in
    (r, set_fs (λ _, f') (add_event (EvFetch url output) w)).
Proof. reflexivity. Qed.

(** What [download_zip] does once it has decided to fetch. *)
Lemma download_zip_after_fetch (config : DataAcquisitionConfig) (w w1 : world) r f2 :
  let p := download_file_path config in
  let url := "https://drive.google.com/uc?id=" +:+ file_id config in
  Path_mkdir (parent p) w = (Ret tt, w1) →
  (∀ n, fs w1 !! p = Some n → st_size n = 0%N) →
  gdown_download url p (fs w1) = (r, f2) →
  download_zip gdown_download config w =
    (match r with
     | Raise e => Raise e
     | Ret _ =>
         match f2 !! p with
         | Some _ => Ret tt
         | None => Raise (OSError (missing_errno f2 p) p)
         end
     end, set_fs (λ _, f2) (add_event (EvFetch url p) w1)).
Proof.
  intros p url Hmk Hsz Hg. unfold download_zip. rewrite try_except_reraise.
  erewrite bind_Ret; last exact Hmk.
  erewrite bind_Ret; last apply exists_and_nonempty_eq.
  fold p. replace (match fs w1 !! p with Some n => (0 <? st_size n)%N | None => false end)
    with false; last first.
  { destruct (fs w1 !! p) as [n|] eqn:E; [| done]. by rewrite (Hsz n eq_refl). }
  fold url. unfold mbind at 1, M_bind at 1. rewrite call_gdown_eq, Hg.
  destruct r as [[]|e]; [| done].
  unfold mbind, M_bind. rewrite missing_and_empty_eq. simpl. by destruct (f2 !! p).
Qed.

(** C9: the guard [not p.exists() and p.stat().st_size == 0] never
    evaluates to true, so the [RuntimeError] of [download_zip] is never
    raised by the program (only the fetch itself could raise one); when the
    fetch returns and the file is missing, the failure is the
    [FileNotFoundError] of [stat]; when it returns and the file exists,
    even with no byte in it, [download_zip] returns normally.  The library
    is assumed not to remove or replace directories. *)
Theorem download_zip_RuntimeError_unreachable :
  (∀ url out f r f', gdown_download url out f = (r, f') →
     ∀ q, f !! q = Some Dir → f' !! q = Some Dir) →
  (∀ p w w', missing_and_empty p w ≠ (Ret true, w'))
  ∧ (∀ config w r w',
       download_zip gdown_download config w = (r, w') →
       r = Raise (RuntimeError "Download failed or produced an empty file") →
       ∃ url f f', gdown_download url (download_file_path config) f = (r, f'))
  ∧ (∀ config w w1 f2,
       let p := download_file_path config in
       let url := "https://drive.google.com/uc?id=" +:+ file_id config in
       let w2 := set_fs (λ _, f2) (add_event (EvFetch url p) w1) in
       Path_mkdir (parent p) w = (Ret tt, w1) →
       (∀ n, fs w1 !! p = Some n → st_size n = 0%N) →
       gdown_download url p (fs w1) = (Ret tt, f2) →
       (f2 !! p = None →
          download_zip gdown_download config w = (Raise (OSError ENOENT p), w2))
       ∧ (∀ n, f2 !! p = Some n → download_zip gdown_download config w = (Ret tt, w2))).
Proof.
  intros Hkeep. split; [| split].
  - intros p w w'. rewrite missing_and_empty_eq. by destruct (fs w !! p).
  - intros config w r w' Hrun ->.
    destruct (Path_mkdir (parent (download_file_path config)) w) as [[[]|e] w1] eqn:Hmk.
    + destruct (fs w1 !! download_file_path config) as [n|] eqn:En.
      * destruct (decide (0 < st_size n)%N) as [Hpos|Hz].
        -- exfalso. revert Hrun. unfold download_zip. rewrite try_except_reraise.
           erewrite bind_Ret; last exact Hmk.
           erewrite bind_Ret; last apply exists_and_nonempty_eq.
           rewrite En. replace (0 <? st_size n)%N with true
             by (symmetry; by apply N.ltb_lt).
           erewrite bind_Ret; last by apply os_stat_Some. done.
        -- destruct (gdown_download ("https://drive.google.com/uc?id=" +:+ file_id config)
                       (download_file_path config) (fs w1)) as [r f2] eqn:Hg.
           rewrite (download_zip_after_fetch config w w1 r f2 Hmk) in Hrun; [| | done].
           ++ destruct r as [[]|e]; [by destruct (f2 !! _) |].
              injection Hrun as -> _. eauto.
           ++ intros n' Hn'. rewrite En in Hn'. injection Hn' as <-. lia.
      * destruct (gdown_download ("https://drive.google.com/uc?id=" +:+ file_id config)
                    (download_file_path config) (fs w1)) as [r f2] eqn:Hg.
        rewrite (download_zip_after_fetch config w w1 r f2 Hmk) in Hrun; [| | done].
        -- destruct r as [[]|e]; [by destruct (f2 !! _) |].
           injection Hrun as -> _. eauto.
        -- intros n' Hn'. by rewrite En in Hn'.
    + exfalso. revert Hrun. unfold download_zip. rewrite try_except_reraise.
      erewrite bind_Raise; last exact Hmk.
      intros [= -> _]. by destruct (Path_mkdir_raises _ _ _ _ Hmk) as (? & ? & ?).
  - intros config w w1 f2 p url w2 Hmk Hsz Hg.
    pose proof (download_zip_after_fetch config w w1 _ f2 Hmk Hsz Hg) as Hrun.
    fold p url w2 in Hrun. split.
    + intros Hnone. rewrite Hrun, Hnone. do 2 f_equal.
      assert (f2 !! parent p = Some Dir) as Hpar.
      { eapply Hkeep; [exact Hg |]. by eapply Path_mkdir_Ret. }
      destruct p as [|x q]; simpl in *; [congruence | by rewrite Hpar].
    + intros n Hn. by rewrite Hrun, Hn.
Qed.


(** When the directory creation fails, that failure is the outcome. *)
Lemma extract_all_mkdir_fails (config : DataAcquisitionConfig) (w w1 : world) e :
  Path_mkdir (extract_dir config) w = (Raise e, w1) →
  extract_all zip_infolist config w = (Raise e, w1).
Proof. intros Hmk. rewrite extract_all_eq. by erewrite bind_Raise. Qed.

(** C10 (as amended): [extract_all] creates [extract_dir] before it looks
    at the archive, so whenever that creation does not itself fail the
    directory exists after the call, whatever the outcome of the call. *)
Theorem extract_all_leaves_extract_dir (config : DataAcquisitionConfig) (w w1 : world) r w' :
  Path_mkdir (extract_dir config) w = (Ret tt, w1) →
  extract_all zip_infolist config w = (r, w') →
  fs w' !! extract_dir config = Some Dir.
Proof.
  intros Hmk. rewrite extract_all_eq. erewrite bind_Ret; last exact Hmk.
  intros Hrun. eapply validate_and_extract_dirs_kept; [exact Hrun |].
  by eapply Path_mkdir_Ret.
Qed.

End data_acquisition.

(** *** Concrete runs *)

Section data_acquisition_runs.
Import DataAcquisition Samples.

Lemma wf_fs_archive : wf_fs fs_archive.
Proof. apply (bool_decide_unpack (wf_fs fs_archive)). by vm_compute. Qed.

Lemma download_zip_skips_existing_witness :
  wf_fs fs_archive
  ∧ fs_archive !! download_file_path config_tmp = Some (File "PK")
  ∧ download_zip (gdown_stores "zip") config_tmp (world_of fs_archive)
    = (Ret tt, add_event (EvStdoutSkip 2) (world_of fs_archive)).
Proof.
  split; [exact wf_fs_archive |]. split; [reflexivity |].
  apply (download_zip_skips_existing (gdown_stores "zip") config_tmp
           (world_of fs_archive) (File "PK")).
  - exact wf_fs_archive.
  - reflexivity.
  - reflexivity.
Defined.

(** C2 (the code departs from its docstring): the fetch returns without
    having written the archive; [download_zip] then fails with the
    [FileNotFoundError] that [stat] raises inside the guard, not with the
    [RuntimeError] of the next line. *)
Theorem download_zip_missing_after_fetch :
  download_zip gdown_gives_up config_tmp (world_of fs_tmp)
  = (Raise (OSError ENOENT ["a.zip"; "tmp"]),
     add_event (EvFetch "https://drive.google.com/uc?id=X" ["a.zip"; "tmp"]) (world_of fs_tmp)).
Proof. vm_compute. reflexivity. Qed.

Lemma gdown_stores_keeps_dirs data url out f r f' :
  gdown_stores data url out f = (r, f') → ∀ q, f !! q = Some Dir → f' !! q = Some Dir.
Proof.
  unfold gdown_stores. destruct (f !! out) as [[d|]|] eqn:E; intros [= _ <-] q Hq;
    try done; rewrite lookup_insert_ne; (done || congruence).
Qed.

Lemma download_zip_RuntimeError_unreachable_witness :
  download_zip (gdown_stores "") config_tmp (world_of fs_tmp)
  = (Ret tt,
     set_fs (λ _, <[ ["a.zip"; "tmp"] := File "" ]> fs_tmp)
       (add_event (EvFetch "https://drive.google.com/uc?id=X" ["a.zip"; "tmp"])
          (world_of fs_tmp))).
Proof.
  pose proof (download_zip_RuntimeError_unreachable (gdown_stores "")
                (gdown_stores_keeps_dirs "")) as (_ & _ & H).
  destruct (H config_tmp (world_of fs_tmp) (world_of fs_tmp)
              (<[ ["a.zip"; "tmp"] := File "" ]> fs_tmp)) as [_ Hzero].
  - reflexivity.
  - intros n. by vm_compute.
  - reflexivity.
  - apply (Hzero (File "")). reflexivity.
Defined.



(** With the archive's directory missing as well the outcome is the same
    [FileNotFoundError]; with a regular file on the way to the archive,
    [stat] raises [NotADirectoryError]. *)
Example extract_all_archive_directory_missing :
  fs_root !! parent (download_file_path config_tmp) = None
  ∧ (extract_all zip_one_entry config_tmp (world_of fs_root)).1
    = Raise (OSError ENOENT ["a.zip"; "tmp"]).
Proof. split; [reflexivity | by vm_compute]. Qed.

Example extract_all_archive_under_file :
  fs_notes !! download_file_path config_under_file = None
  ∧ extract_all zip_one_entry config_under_file (world_of fs_notes)
    = (Raise (OSError ENOTDIR ["a.zip"; "notes.txt"]),
       world_of (<[ ["out"] := Dir ]> fs_notes)).
Proof. split; [reflexivity | by vm_compute]. Qed.

Lemma extract_all_leaves_extract_dir_counterexample :
  extract_all zip_one_entry config_below_archive (world_of fs_archive)
  = (Raise (OSError ENOTDIR ["out"; "a.zip"; "tmp"]), world_of fs_archive)
  ∧ fs_archive !! extract_dir config_below_archive = None.
Proof. split; [by vm_compute | reflexivity]. Qed.

Lemma extract_all_leaves_extract_dir_witness :
  (extract_all zip_one_entry config_tmp (world_of fs_archive)).1 = Ret tt
  ∧ fs (extract_all zip_one_entry config_tmp (world_of fs_archive)).2 !! ["out"; "tmp"]
    = Some Dir.
Proof.
  split; [by vm_compute |].
  eapply (extract_all_leaves_extract_dir zip_one_entry config_tmp (world_of fs_archive)
            (world_of (<[ ["out"; "tmp"] := Dir ]> fs_archive))).
  - by vm_compute.
  - apply surjective_pairing.
Defined.

End data_acquisition_runs.

(** ** [get_logger] *)

Section logging_setup.
Import LoggingSetup.

Lemma get_logger_eq name p m :
  get_logger name p m =
    (Path_mkdir (parent p);; logger ← getLogger name; configure logger p m).
Proof. reflexivity. Qed.

Lemma set_loggers_same w : set_loggers (loggerDict w) (objects w) (next_id w) w = w.
Proof. by destruct w. Qed.

Lemma update_logger_id l f w lg :
  objects w !! l = Some lg → f lg = lg → update_logger l f w = (Ret tt, w).
Proof.
  intros Hl Hf. unfold update_logger.
  assert (alter f l (objects w) = objects w) as ->.
  { apply map_eq. intros i. rewrite lookup_alter. case_decide; [| done].
    subst. rewrite Hl. simpl. by rewrite Hf. }
  by rewrite set_loggers_same.
Qed.

(** On a logger that [get_logger] has set up, the configuration step
    changes nothing. *)
Lemma configure_attached name l p m p' m' w :
  attached name l p m w → configure l p' m' w = (Ret l, w).
Proof.
  intros (_ & _ & Hobj & _). unfold configure, setLevel, set_propagate.
  erewrite bind_Ret; last by eapply update_logger_id.
  erewrite bind_Ret; last first.
  { unfold get_handlers. rewrite Hobj. reflexivity. }
  simpl. erewrite bind_Ret; last reflexivity.
  erewrite bind_Ret; last by eapply update_logger_id.
  reflexivity.
Qed.

Lemma mkdir_towards_attached q name l p m w w' :
  mkdir_towards q w w' → attached name l p m w → attached name l p m w'.
Proof.
  intros (Hfs & Hold & _) (Hd & Hlt & Hobj & data & Hf).
  rewrite Hfs. unfold attached. simpl. repeat split; try done.
  exists data. by apply Hold.
Qed.

Lemma open_for_write_Ret p mode w w' :
  open_for_write p mode w = (Ret tt, w') →
  loggerDict w' = loggerDict w ∧ objects w' = objects w ∧ next_id w' = next_id w
  ∧ ∃ data, fs w' !! p = Some (File data).
Proof.
  unfold open_for_write. unfold_M.
  destruct (fs w !! p) as [[data|]|] eqn:Ep.
  - destruct mode; intros [= <-]; simpl; repeat split; try done.
    + exists "". apply lookup_insert_eq.
    + by exists data.
  - done.
  - destruct (fs w !! parent p) as [[|]|], p as [|x q]; try done.
    intros [= <-]. simpl. repeat split; try done. exists "". apply lookup_insert_eq.
Qed.

Lemma configure_fresh l p m w l' w' :
  objects w !! l = Some (Logger NOTSET [] true) →
  configure l p m w = (Ret l', w') →
  l' = l ∧ loggerDict w' = loggerDict w ∧ next_id w' = next_id w
  ∧ objects w' !! l = Some (project_logger p m)
  ∧ ∃ data, fs w' !! p = Some (File data).
Proof.
  intros Hobj. unfold configure, setLevel, addHandler, set_propagate, new_FileHandler,
    new_StreamHandler, get_handlers, update_logger.
  unfold_M. simpl. rewrite lookup_alter_eq, Hobj. simpl.
  destruct (open_for_write p m _) as [[[]|e] w1] eqn:Eo; [| done].
  apply open_for_write_Ret in Eo as (Hd & Ho & Hn & Hf). simpl in *.
  intros [= <- <-]. simpl. repeat split; try done.
  rewrite !lookup_alter_eq, Ho, lookup_alter_eq, Hobj. reflexivity.
Qed.

Lemma get_logger_first name p m w0 l w1 :
  loggerDict w0 !! name = None →
  get_logger name p m w0 = (Ret l, w1) →
  attached name l p m w1.
Proof.
  intros Hnone. rewrite get_logger_eq. unfold mbind at 1, M_bind at 1.
  destruct (Path_mkdir (parent p) w0) as [[[]|e] wa] eqn:Hmk; [| done].
  destruct (Path_mkdir_towards _ _ _ _ Hmk) as (Hfs & _ & _).
  unfold mbind, M_bind, getLogger. rewrite Hfs. simpl. rewrite Hnone.
  intros Hc. apply configure_fresh in Hc as (-> & Hd & Hn & Ho & Hf);
    [| simpl; apply lookup_insert_eq].
  simpl in *. unfold attached. rewrite Hd, Hn. split; [apply lookup_insert_eq |].
  split; [lia | done].
Qed.

(** *** What later calls leave in place *)

Global Instance keeps_attached_preorder name l p m : PreOrder (keeps_attached name l p m).
Proof.
  split; [intros w H; exact H | intros w1 w2 w3 H12 H23 H; apply H23, H12, H].
Qed.

Global Instance files_stay_preorder : PreOrder files_stay.
Proof.
  split; [intros w; by repeat split |].
  intros w1 w2 w3 (Ha & Hb & Hc & Hd) (Ha' & Hb' & Hc' & Hd').
  repeat split; try congruence. eauto.
Qed.

Lemma files_stay_keeps_attached name l p m w w' :
  files_stay w w' → keeps_attached name l p m w w'.
Proof.
  intros (Hd & Ho & Hn & Hf) (H1 & H2 & H3 & H4).
  unfold attached. rewrite Hd, Ho, Hn. eauto.
Qed.

Lemma open_for_write_files_stay p mode : preserves files_stay (open_for_write p mode).
Proof.
  intros w r w'. unfold open_for_write. unfold_M.
  destruct (fs w !! p) as [[data|]|] eqn:Ep.
  - destruct mode; intros [= _ <-]; [| reflexivity].
    repeat split; try done. simpl. intros q [d Hq].
    rewrite lookup_insert. case_decide; eauto.
  - intros [= _ <-]. reflexivity.
  - destruct (fs w !! parent p) as [[|]|], p as [|x q];
      try (intros [= _ <-]; reflexivity).
    intros [= _ <-]. repeat split; try done. simpl. intros q' [d Hq'].
    rewrite lookup_insert. case_decide; eauto.
Qed.



Lemma update_logger_keeps_attached name l p m l' f :
  l' ≠ l → preserves (keeps_attached name l p m) (update_logger l' f).
Proof.
  intros Hne w r w' [= _ <-] (H1 & H2 & H3 & H4). unfold attached. simpl.
  repeat split; try done. by rewrite lookup_alter_ne.
Qed.

Lemma configure_keeps_attached name l p m l' p' m' :
  l' ≠ l → preserves (keeps_attached name l p m) (configure l' p' m').
Proof.
  intros Hne. unfold configure, setLevel, addHandler, set_propagate.
  apply preserves_bind; [apply _ | by apply update_logger_keeps_attached |]. intros _.
  apply preserves_bind; [apply _ | | intros hs].
  { intros w r w' [= _ <-]. reflexivity. }
  apply preserves_bind; [apply _ | | intros _].
  - destruct hs; [| apply preserves_mret; apply _].
    apply preserves_bind; [apply _ | | intros fh].
    { unfold new_FileHandler. apply preserves_bind; [apply _ | |
        intros _; apply preserves_mret; apply _].
      eapply preserves_mono; [| apply open_for_write_files_stay].
      apply files_stay_keeps_attached. }
    apply preserves_bind; [apply _ | apply preserves_mret; apply _ | intros ch].
    apply preserves_bind; [apply _ | by apply update_logger_keeps_attached | intros _].
    by apply update_logger_keeps_attached.
  - apply preserves_bind; [apply _ | by apply update_logger_keeps_attached | intros _].
    apply preserves_mret; apply _.
Qed.

Lemma get_logger_keeps_attached name l p m name' p' m' :
  preserves (keeps_attached name l p m) (get_logger name' p' m').
Proof.
  rewrite get_logger_eq.
  apply preserves_bind; [apply _ | | intros _].
  { eapply preserves_mono; [| apply Path_mkdir_towards].
    intros w w' H Hatt. by eapply mkdir_towards_attached. }
  intros w r w'. unfold mbind, M_bind, getLogger.
  destruct (loggerDict w !! name') as [l'|] eqn:El'.
  - intros Hrun Hatt. destruct (decide (l' = l)) as [->|Hne].
    + rewrite (configure_attached _ _ _ _ _ _ _ Hatt) in Hrun. by injection Hrun as _ <-.
    + by eapply configure_keeps_attached.
  - intros Hrun Hatt. destruct Hatt as (H1 & H2 & H3 & H4).
    eapply (configure_keeps_attached name l p m (next_id w)); [lia | exact Hrun |].
    unfold attached. simpl. rewrite lookup_insert_ne by congruence.
    rewrite lookup_insert_ne by lia. repeat split; try done. lia.
Qed.






End logging_setup.

Section logging_setup_runs.
Import LoggingSetup Samples.



End logging_setup_runs.

(** ** [CustomException] *)

Section exception.
Import Exception.
Context {Cause : Type} (str : Cause → string).



End exception.


(** ** [load_yaml] and [ConfigurationManager] *)

Section configuration.
Import DataIO Configuration.

Variable yaml_safe_load : string → yaml + string.
Variable box_from_iterable : list yaml → outcome ConfigBox.
Variable box_conversion : string → ConfigBox → option yaml.

Local Abbreviation load_yaml := (load_yaml yaml_safe_load box_from_iterable).
Local Abbreviation ConfigurationManager_init :=
  (ConfigurationManager_init yaml_safe_load box_from_iterable box_conversion).

(** Loading reads; it never writes, creates or calls out. *)
Lemma load_yaml_same_world p w r w' : load_yaml p w = (r, w') → w' = w.
Proof.
  unfold DataIO.load_yaml, try_except, read_file, safe_load, ConfigBox_init. unfold_M.
  destruct (fs w !! p) as [[data|]|]; simpl; try by intros [= _ <-].
  destruct (yaml_safe_load data) as [[]|msg]; simpl; try by intros [= _ <-].
  destruct (box_from_iterable items) as [c|[]]; simpl; by intros [= _ <-].
Qed.

(** The four ways a readable document is answered. *)
Lemma load_yaml_document p w data :
  fs w !! p = Some (File data) →
  load_yaml p w =
    (match yaml_safe_load data with
     | inr msg => Raise (YAMLError msg)
     | inl YNull => Raise (ValueError ("YAML file at " +:+ path_str p +:+ " is empty"))
     | inl (YMap items) => Ret items
     | inl (YSeq items) =>
         match box_from_iterable items with
         | Raise (BoxValueError _) =>
             Raise (ValueError "YAML file is invalid or contains unsupported values")
         | r => r
         end
     | inl _ => Raise (ValueError "YAML file is invalid or contains unsupported values")
     end, w).
Proof.
  intros Hf. unfold DataIO.load_yaml, try_except, read_file, safe_load, ConfigBox_init.
  unfold_M. rewrite Hf. simpl.
  destruct (yaml_safe_load data) as [[]|msg]; simpl; try done.
  by destruct (box_from_iterable items) as [c|[]].
Qed.

(** Attribute access, by what the name resolves to. *)
Lemma getattr_eq v key w :
  getattr box_conversion v key w =
    (match v with
     | YMap items =>
         match box_lookup box_conversion key items with
         | Some x => Ret x
         | None => Raise (BoxKeyError key)
         end
     | _ => Raise (AttributeError key)
     end, w).
Proof.
  unfold getattr, box_lookup. destruct v; try done.
  destruct (assoc key items); [done |]. by destruct (box_conversion key items).
Qed.

(** C6 (as amended): the only name [ConfigurationManager] asks the
    document for is [data_ingestion.raw_data_path].  For a mapping
    document in which that name does not resolve, the construction fails:
    with [BoxKeyError] for [data_ingestion] when that name does not
    resolve, with [BoxKeyError] for [raw_data_path] when [data_ingestion]
    is a mapping in which [raw_data_path] does not resolve, with
    [AttributeError] when [data_ingestion] is something else than a
    mapping.  None of these is a [ValueError], and nothing has happened
    by then: no directory is created, no event is recorded.  A name
    resolves when a key is equal to it or when the library's conversion
    finds a key for it. *)
Theorem ConfigurationManager_init_missing_key (config_path : path) (w : world)
    (data : string) (items : ConfigBox) :
  fs w !! config_path = Some (File data) →
  yaml_safe_load data = inl (YMap items) →
  (box_lookup box_conversion "data_ingestion" items = None →
     ConfigurationManager_init config_path w = (Raise (BoxKeyError "data_ingestion"), w))
  ∧ (∀ sub,
       box_lookup box_conversion "data_ingestion" items = Some (YMap sub) →
       box_lookup box_conversion "raw_data_path" sub = None →
       ConfigurationManager_init config_path w = (Raise (BoxKeyError "raw_data_path"), w))
  ∧ (∀ v,
       box_lookup box_conversion "data_ingestion" items = Some v →
       (∀ sub, v ≠ YMap sub) →
       ConfigurationManager_init config_path w = (Raise (AttributeError "raw_data_path"), w))
  ∧ is_ValueError (BoxKeyError "data_ingestion") = false
  ∧ is_ValueError (BoxKeyError "raw_data_path") = false
  ∧ is_ValueError (AttributeError "raw_data_path") = false.
Proof.
  intros Hf Hy.
  assert (ConfigurationManager_init config_path w =
          (data_ingestion ← getattr box_conversion (YMap items) "data_ingestion";
           raw_data_path ← getattr box_conversion data_ingestion "raw_data_path";
           p ← Path raw_data_path;
           create_directories [p];;
           mret {| config_path := config_path; config := items |}) w) as ->.
  { unfold Configuration.ConfigurationManager_init.
    erewrite bind_Ret; last by (rewrite (load_yaml_document _ _ _ Hf), Hy). done. }
  split; [| split; [| split; [| done]]].
  - intros Hdi. erewrite bind_Raise; first reflexivity. by rewrite getattr_eq, Hdi.
  - intros sub Hdi Hrdp. erewrite bind_Ret; last by rewrite getattr_eq, Hdi.
    erewrite bind_Raise; first reflexivity. by rewrite getattr_eq, Hrdp.
  - intros v Hdi Hv. erewrite bind_Ret; last by rewrite getattr_eq, Hdi.
    erewrite bind_Raise; first reflexivity. rewrite getattr_eq.
    destruct v; try done. by destruct (Hv items0).
Qed.

(** With [data_ingestion.raw_data_path] in the document the construction
    goes on to the directory creation, whatever else is missing. *)
Lemma ConfigurationManager_init_loads (config_path : path) (w : world)
    (data : string) (items : ConfigBox) sub s :
  fs w !! config_path = Some (File data) →
  yaml_safe_load data = inl (YMap items) →
  assoc "data_ingestion" items = Some (YMap sub) →
  assoc "raw_data_path" sub = Some (YStr s) →
  ConfigurationManager_init config_path w =
    (Path_mkdir (Path_of_str s);;
     mret {| config_path := config_path; config := items |}) w.
Proof.
  intros Hf Hy H1 H2. unfold Configuration.ConfigurationManager_init.
  erewrite bind_Ret; last by (rewrite (load_yaml_document _ _ _ Hf), Hy).
  unfold getattr, Path, create_directories. unfold_M. rewrite H1, H2. simpl.
  by destruct (Path_mkdir (Path_of_str s) w) as [[[]|e] w1].
Qed.

End configuration.

Section configuration_runs.
Import DataIO Configuration Samples.

(** A document without [database.table_name] loads, and the load creates
    [artifacts/raw]. *)
Lemma ConfigurationManager_init_counterexample :
  assoc "database" [("data_ingestion", YMap [("raw_data_path", YStr "artifacts/raw")])] = None
  ∧ yaml_loader training_yaml = inl training_doc
  ∧ ConfigurationManager_init yaml_loader no_pairs dash_conversion TRAINING_CONFIG_PATH
      (world_of (fs_configs training_yaml))
    = (Ret {| config_path := TRAINING_CONFIG_PATH;
              config := [("data_ingestion", YMap [("raw_data_path", YStr "artifacts/raw")])] |},
       world_of (<[ ["raw"; "artifacts"] := Dir ]>
                   (<[ ["artifacts"] := Dir ]> (fs_configs training_yaml)))).
Proof. split; [reflexivity |]. split; [reflexivity |]. by vm_compute. Qed.

Lemma ConfigurationManager_init_missing_key_witness :
  ConfigurationManager_init yaml_loader no_pairs dash_conversion TRAINING_CONFIG_PATH
    (world_of (fs_configs no_raw_path_yaml))
  = (Raise (BoxKeyError "raw_data_path"), world_of (fs_configs no_raw_path_yaml)).
Proof.
  assert (fs (world_of (fs_configs no_raw_path_yaml)) !! TRAINING_CONFIG_PATH
          = Some (File no_raw_path_yaml)) as H1 by (vm_compute; reflexivity).
  assert (yaml_loader no_raw_path_yaml = inl (YMap [("data_ingestion", YMap [])])) as H2
    by (vm_compute; reflexivity).
  assert (box_lookup dash_conversion "data_ingestion" [("data_ingestion", YMap [])]
          = Some (YMap [])) as H3 by (vm_compute; reflexivity).
  assert (box_lookup dash_conversion "raw_data_path" [] = None) as H4
    by (vm_compute; reflexivity).
  exact (proj1 (proj2 (ConfigurationManager_init_missing_key yaml_loader no_pairs
                         dash_conversion TRAINING_CONFIG_PATH
                         (world_of (fs_configs no_raw_path_yaml)) no_raw_path_yaml
                         [("data_ingestion", YMap [])] H1 H2))
               [] H3 H4).
Defined.

(** A document that spells the keys with dashes has no key equal to
    [data_ingestion]; the library's conversion resolves the name all the
    same, so the document loads and the directory is created. *)
Example ConfigurationManager_init_dashed_keys :
  assoc "data_ingestion" [("data-ingestion", YMap [("raw-data-path", YStr "artifacts/raw")])]
  = None
  ∧ (ConfigurationManager_init yaml_loader no_pairs dash_conversion TRAINING_CONFIG_PATH
       (world_of (fs_configs dashed_yaml))).2
    = world_of (<[ ["raw"; "artifacts"] := Dir ]>
                  (<[ ["artifacts"] := Dir ]> (fs_configs dashed_yaml))).
Proof. split; [reflexivity | by vm_compute]. Qed.

(** C8 (the code departs from its docstring): a malformed document makes
    [yaml.safe_load] raise [YAMLError]; [load_yaml] lets it through as it
    is, and [YAMLError] is not a [ValueError]. *)
Theorem load_yaml_malformed_document :
  yaml_loader "data_ingestion: {raw_data_path: " = inr "while parsing a flow mapping: expected ',' or '}'"
  ∧ load_yaml yaml_loader no_pairs TRAINING_CONFIG_PATH
      (world_of (fs_configs "data_ingestion: {raw_data_path: "))
    = (Raise (YAMLError "while parsing a flow mapping: expected ',' or '}'"),
       world_of (fs_configs "data_ingestion: {raw_data_path: "))
  ∧ is_ValueError (YAMLError "while parsing a flow mapping: expected ',' or '}'") = false.
Proof. split; [reflexivity |]. split; [by vm_compute | reflexivity]. Qed.

End configuration_runs.

(** ** [ingest_db] *)

Section ingest_db.
Import DataIO IngestDb.

Variable pd_parse_csv : string → option DataFrame.
Variable box_conversion : string → ConfigBox → option yaml.

Local Abbreviation pd_read_csv := (pd_read_csv pd_parse_csv).
Local Abbreviation ingest_files := (ingest_files pd_parse_csv).
Local Abbreviation ingest_db := (ingest_db pd_parse_csv box_conversion).







End ingest_db.

Section ingest_db_runs.
Import DataIO IngestDb Samples.

(** The two files of the sample directory, listed as [a.csv] then
    [b.csv]: the table ends with the rows of [b.csv] only. *)
Example ingest_files_a_then_b :
  ingest_files csv_parser (YStr "flight_prices") ["data"] ["a.csv"; "b.csv"] world_data
  = (Ret tt,
     set_db (Some {[ "flight_prices" := {| columns := ["price"]; rows := [["2"]] |} ]})
       (world_of fs_data)).
Proof. by vm_compute. Qed.

(** The sample file system lists [b.csv] first; [ingest_db] then leaves
    the rows of [a.csv]. *)
Example ingest_db_sample_run :
  children fs_data ["data"] = ["b.csv"; "a.csv"; "notes.txt"]
  ∧ ingest_db csv_parser dash_conversion ingestion_config world_data
    = (Ret tt,
       set_db (Some {[ "flight_prices" := {| columns := ["price"]; rows := [["1"]] |} ]})
         (world_of fs_data)).
Proof. split; by vm_compute. Qed.


End ingest_db_runs.


(* ===================================================================== *)
(** * Part III: further properties *)
(* ===================================================================== *)

(** ** [create_directories] *)

Section create_directories.
Import DataIO.

Global Instance entries_kept_preorder : PreOrder entries_kept.
Proof. split; [by intros w q n | intros w1 w2 w3 H12 H23 q n Hq; eauto]. Qed.

Global Instance only_new_dirs_preorder : PreOrder only_new_dirs.
Proof.
  split.
  - intros w. split; [reflexivity |]. split; [reflexivity | congruence].
  - intros w1 w2 w3 (Ha & Hb & Hc) (Ha' & Hb' & Hc').
    split; [by etrans |]. split; [by etrans |].
    intros q n Hq1 Hq3. destruct (fs w2 !! q) as [n2|] eqn:E2; [| eauto].
    rewrite (Hb' _ _ E2) in Hq3. injection Hq3 as <-. eauto.
Qed.

Lemma mkdir_towards_only_new_dirs p w w' : mkdir_towards p w w' → only_new_dirs w w'.
Proof.
  intros (H1 & H2 & H3). split; [done |]. split; [done |].
  intros q n Hq Hq'. by destruct (H3 _ _ Hq Hq').
Qed.

Lemma create_directories_only_new_dirs l : preserves only_new_dirs (create_directories l).
Proof.
  induction l as [|p l IH]; simpl; [apply preserves_mret; apply _ |].
  apply preserves_bind; [apply _ | | done].
  eapply preserves_mono; [| apply Path_mkdir_towards]. apply mkdir_towards_only_new_dirs.
Qed.


Lemma create_directories_Ret l w w' :
  create_directories l w = (Ret tt, w') → Forall (λ p, fs w' !! p = Some Dir) l.
Proof.
  revert w. induction l as [|p l IH]; intros w; simpl; [by constructor |].
  unfold mbind, M_bind. destruct (Path_mkdir p w) as [[[]|e] w1] eqn:Hmk; [| done].
  intros Hrest. constructor; [| by eapply IH].
  destruct (create_directories_only_new_dirs l w1 _ w' Hrest) as (_ & Hkept & _).
  apply Hkept. by eapply Path_mkdir_Ret.
Qed.

Lemma create_directories_all_Dir l w :
  Forall (λ p, fs w !! p = Some Dir) l → create_directories l w = (Ret tt, w).
Proof.
  induction 1 as [|p l Hp _ IH]; simpl; [done |].
  erewrite bind_Ret; last by apply Path_mkdir_Dir. exact IH.
Qed.


(** X2: a second call after a successful one changes nothing and
    succeeds. *)
Theorem create_directories_idempotent (list_dir_path : list path) (w w' : world) :
  create_directories list_dir_path w = (Ret tt, w') →
  create_directories list_dir_path w' = (Ret tt, w').
Proof. intros Hrun. by apply create_directories_all_Dir, (create_directories_Ret _ w). Qed.

End create_directories.

(** ** [load_yaml], [ConfigurationManager] and its accessor *)

Section configuration_more.
Import DataIO Configuration EntityConfig ConfigurationAccess.

Variable yaml_safe_load : string → yaml + string.
Variable box_from_iterable : list yaml → outcome ConfigBox.
Variable box_conversion : string → ConfigBox → option yaml.

Local Abbreviation load_yaml := (load_yaml yaml_safe_load box_from_iterable).
Local Abbreviation ConfigurationManager_init :=
  (ConfigurationManager_init yaml_safe_load box_from_iterable box_conversion).
Local Abbreviation get_data_ingestion_config := (get_data_ingestion_config box_conversion).

(** X3: [load_yaml] only reads: whatever it returns or raises, the world
    is as before.  When the file cannot be opened the caller gets the
    [OSError] of [open] itself: [FileNotFoundError] or
    [NotADirectoryError] for a missing file, [IsADirectoryError] for a
    directory. *)
Theorem load_yaml_only_reads (path_to_yaml : path) (w : world) :
  (∀ r w', load_yaml path_to_yaml w = (r, w') → w' = w)
  ∧ (fs w !! path_to_yaml = None →
     load_yaml path_to_yaml w
     = (Raise (OSError (missing_errno (fs w) path_to_yaml) path_to_yaml), w))
  ∧ (fs w !! path_to_yaml = Some Dir →
     load_yaml path_to_yaml w = (Raise (OSError EISDIR path_to_yaml), w)).
Proof.
  split; [intros r w'; apply load_yaml_same_world |].
  split; intros Hf; unfold DataIO.load_yaml, try_except, read_file; unfold_M;
    by rewrite Hf.
Qed.


Lemma ConfigurationManager_init_Ret config_path w cm w' :
  ConfigurationManager_init config_path w = (Ret cm, w') →
  ∃ sub s,
    box_lookup box_conversion "data_ingestion" (config cm) = Some (YMap sub)
    ∧ box_lookup box_conversion "raw_data_path" sub = Some (YStr s)
    ∧ Configuration.config_path cm = config_path
    ∧ Path_mkdir (Path_of_str s) w = (Ret tt, w').
Proof.
  unfold Configuration.ConfigurationManager_init. unfold mbind at 1, M_bind at 1.
  destruct (DataIO.load_yaml _ _ config_path w) as [[items|e] w1] eqn:Hload; [| done].
  apply load_yaml_same_world in Hload as ->.
  unfold mbind at 1, M_bind at 1. rewrite getattr_eq.
  destruct (box_lookup box_conversion "data_ingestion" items) as [v|] eqn:Hdi; [| done].
  unfold mbind at 1, M_bind at 1. rewrite getattr_eq.
  destruct v as [| | | | | |sub]; try done.
  destruct (box_lookup box_conversion "raw_data_path" sub) as [[| | | |s| |]|] eqn:Hrdp;
    try done.
  unfold Path, create_directories. unfold_M.
  destruct (Path_mkdir (Path_of_str s) w) as [[[]|e] w2] eqn:Hmk; [| done].
  intros [= <- <-]. simpl. eauto 10.
Qed.

(** X5: once [ConfigurationManager] has been built,
    [get_data_ingestion_config] cannot fail: it returns the path named by
    [data_ingestion.raw_data_path], that path is a directory, and the
    call changes nothing.  Building the manager touched no existing entry
    and added directories only. *)
Theorem get_data_ingestion_config_after_init (config_path : path) (w w' : world)
    (cm : ConfigurationManager) :
  ConfigurationManager_init config_path w = (Ret cm, w') →
  ∃ p,
    get_data_ingestion_config cm w' = (Ret {| raw_data_path := p |}, w')
    ∧ fs w' !! p = Some Dir
    ∧ (∀ q n, fs w !! q = Some n → fs w' !! q = Some n)
    ∧ (∀ q n, fs w !! q = None → fs w' !! q = Some n → n = Dir)
    ∧ trace w' = trace w.
Proof.
  intros Hinit.
  destruct (ConfigurationManager_init_Ret _ _ _ _ Hinit) as (sub & s & Hdi & Hrdp & _ & Hmk).
  exists (Path_of_str s). split.
  { unfold get_data_ingestion_config.
    erewrite bind_Ret; last by rewrite getattr_eq, Hdi.
    erewrite bind_Ret; last by rewrite getattr_eq, Hrdp. done. }
  split; [by eapply Path_mkdir_Ret |].
  destruct (Path_mkdir_towards _ _ _ _ Hmk) as (Hfs & Hkept & Hnew).
  split; [done |]. split; [| by apply only_fs_trace].
  intros q n Hq Hq'. by destruct (Hnew _ _ Hq Hq').
Qed.

End configuration_more.

(** ** [get_logger], the first call and other loggers *)

Section logging_more.
Import LoggingSetup.





Lemma get_logger_new_id name p m w l w' :
  loggerDict w !! name = None → get_logger name p m w = (Ret l, w') → l = next_id w.
Proof.
  intros Hnone. rewrite get_logger_eq. unfold mbind at 1, M_bind at 1.
  destruct (Path_mkdir (parent p) w) as [[[]|e] wa] eqn:Hmk; [| done].
  destruct (Path_mkdir_towards _ _ _ _ Hmk) as (Hfs & _ & _).
  unfold mbind, M_bind, getLogger. rewrite Hfs. simpl. rewrite Hnone.
  intros Hc. apply configure_fresh in Hc as (-> & _); [done |].
  simpl. apply lookup_insert_eq.
Qed.

(** X8: setting up a logger under a new name gives a new object and
    leaves every logger that [get_logger] set up before as it was (both
    names being other than the root's): same
    object for its name, same two handlers, same level, its log file
    still a file. *)
Theorem get_logger_other_name (name : string) (l : nat) (p : path) (m : open_mode)
    (w : world) (name' : string) (p' : path) (m' : open_mode) (l' : nat) (w' : world) :
  ¬ root_name name →
  ¬ root_name name' →
  attached name l p m w →
  loggerDict w !! name' = None →
  get_logger name' p' m' w = (Ret l', w') →
  l' ≠ l ∧ attached name l p m w' ∧ attached name' l' p' m' w'.
Proof.
  intros _ _ Hatt Hnone Hrun.
  pose proof (get_logger_new_id _ _ _ _ _ _ Hnone Hrun) as ->.
  split; [destruct Hatt as (_ & Hlt & _); lia |].
  split; [by eapply get_logger_keeps_attached | by eapply get_logger_first].
Qed.

End logging_more.

(** ** [download_zip], [extract_all] and the entry point *)

Global Instance file_kept_preorder t data : PreOrder (file_kept t data).
Proof. split; [intros w H; exact H | intros w1 w2 w3 H12 H23 H; apply H23, H12, H]. Qed.

Global Instance outside_kept_preorder dest : PreOrder (outside_kept dest).
Proof. split; [by intros w q n | intros w1 w2 w3 H12 H23 q n Hq Hs; eauto]. Qed.

Global Instance no_new_fetch_preorder : PreOrder no_new_fetch.
Proof. split; [by intros w url out | intros w1 w2 w3 H12 H23 url out H; eauto]. Qed.

Lemma entries_kept_file_kept t data w w' : entries_kept w w' → file_kept t data w w'.
Proof. intros H Ht. by apply H. Qed.

Lemma entries_kept_outside_kept dest w w' : entries_kept w w' → outside_kept dest w w'.
Proof. intros H q n Hq _. by apply H. Qed.

Lemma only_fs_no_new_fetch w w' : only_fs w w' → no_new_fetch w w'.
Proof. intros H url out. by rewrite (only_fs_trace _ _ H). Qed.

Lemma mkdir_towards_entries_kept p w w' : mkdir_towards p w w' → entries_kept w w'.
Proof. by intros (_ & H & _). Qed.

Lemma os_mkdir_entries_kept p : preserves entries_kept (os_mkdir p).
Proof. eapply preserves_mono; [| apply os_mkdir_towards]. apply mkdir_towards_entries_kept. Qed.

Lemma os_mkdir_only_fs p : preserves only_fs (os_mkdir p).
Proof. eapply preserves_mono; [| apply os_mkdir_towards]. by intros w w' (H & _). Qed.

Lemma Path_mkdir_only_fs p : preserves only_fs (Path_mkdir p).
Proof. eapply preserves_mono; [| apply Path_mkdir_towards]. by intros w w' (H & _). Qed.

Lemma modify_fs_only_fs g : preserves only_fs (modify_fs g).
Proof. by intros w r w' [= _ <-]. Qed.

(** [os.makedirs] in any of the relations that [os.mkdir] respects. *)
Lemma os_makedirs_preserves (R : relation world) `{!PreOrder R} p :
  (∀ q, preserves R (os_mkdir q)) → preserves R (os_makedirs p).
Proof.
  intros Hmk. induction p as [|x q IH]; simpl; [apply Hmk |].
  apply preserves_bind; [apply _ | (apply Path_exists_same; apply _) |]. intros e.
  apply preserves_bind; [apply _ | | intros _; apply Hmk].
  destruct e; [(apply preserves_mret; apply _) |].
  apply preserves_try_except; [apply _ | done |].
  intros []; try (apply preserves_raise; apply _).
  destruct e; ((apply preserves_raise; apply _) || (apply preserves_mret; apply _)).
Qed.

Lemma open_for_write_only_fs p mode : preserves only_fs (open_for_write p mode).
Proof.
  intros w r w'. unfold open_for_write. unfold_M.
  destruct (fs w !! p) as [[data|]|].
  - destruct mode; intros [= _ <-]; [done | reflexivity].
  - intros [= _ <-]. reflexivity.
  - destruct (fs w !! parent p) as [[|]|], p as [|x q];
      intros [= _ <-]; (done || reflexivity).
Qed.

Lemma write_file_only_fs p data : preserves only_fs (write_file p data).
Proof.
  apply preserves_bind; [apply _ | apply open_for_write_only_fs |].
  intros _. apply modify_fs_only_fs.
Qed.

(** Writing the file at [p] leaves every other entry alone. *)
Lemma write_file_others p data w r w' :
  write_file p data w = (r, w') → ∀ q, q ≠ p → fs w' !! q = fs w !! q.
Proof.
  unfold write_file, open_for_write, stream_write. unfold_M.
  destruct (fs w !! p) as [[old|]|] eqn:Ep; simpl.
  - intros [= _ <-] q Hq. unfold set_fs. simpl.
    rewrite lookup_insert_eq. by rewrite !lookup_insert_ne.
  - by intros [= _ <-].
  - destruct (fs w !! parent p) as [[|]|], p as [|x p']; simpl;
      try (by intros [= _ <-]).
    intros [= _ <-] q Hq. unfold set_fs. simpl.
    rewrite lookup_insert_eq. by rewrite !lookup_insert_ne.
Qed.

Lemma write_file_Ret p data w w' :
  write_file p data w = (Ret tt, w') → fs w' !! p = Some (File data).
Proof.
  unfold write_file, open_for_write, stream_write. unfold_M.
  destruct (fs w !! p) as [[old|]|] eqn:Ep; simpl.
  - intros [= <-]. unfold set_fs. simpl. rewrite lookup_insert_eq. apply lookup_insert_eq.
  - done.
  - destruct (fs w !! parent p) as [[|]|], p as [|x p']; simpl; try done.
    intros [= <-]. unfold set_fs. simpl. rewrite lookup_insert_eq. apply lookup_insert_eq.
Qed.

Section data_acquisition_more.
Import DataAcquisition DataAcquisitionMain.

Variable gdown_download : string → path → gmap path node → outcome unit * gmap path node.
Variable zip_infolist : string → option (list zip_member).

(** X9: when the archive is missing or empty, and its directory can be
    created, [download_zip] calls [gdown.download] exactly once, for
    [https://drive.google.com/uc?id=<file_id>] and the archive path.
    The file system is then what the fetch left, partial files included;
    an exception of the fetch reaches the caller as it is, and a fetch
    that returns with the archive in place makes [download_zip] return. *)
Theorem download_zip_fetches (config : DataAcquisitionConfig) (w w1 : world)
    (r : outcome unit) (f2 : gmap path node) :
  let p := download_file_path config in
  let url := "https://drive.google.com/uc?id=" +:+ file_id config in
  Path_mkdir (parent p) w = (Ret tt, w1) →
  (∀ n, fs w1 !! p = Some n → st_size n = 0%N) →
  gdown_download url p (fs w1) = (r, f2) →
  ∃ r' w2,
    download_zip gdown_download config w = (r', w2)
    ∧ trace w2 = trace w ++ [EvFetch url p]
    ∧ fs w2 = f2
    ∧ (∀ e, r = Raise e → r' = Raise e)
    ∧ (r = Ret tt → is_Some (f2 !! p) → r' = Ret tt).
Proof.
  intros p url Hmk Hsz Hg.
  rewrite (download_zip_after_fetch gdown_download config w w1 r f2 Hmk Hsz Hg).
  eexists _, _. split; [reflexivity |]. simpl.
  destruct (Path_mkdir_towards _ _ _ _ Hmk) as (Hfs & _ & _).
  split; [by rewrite (only_fs_trace _ _ Hfs) |]. split; [done |].
  split; [by intros e -> | intros -> [n Hn]]. fold p. by rewrite Hn.
Qed.

(** X10: an archive that is there but is not a ZIP file, an empty file
    included, makes [extract_all] raise [BadZipFile], once [extract_dir]
    has been created; nothing else has changed. *)
Theorem extract_all_not_a_zip (config : DataAcquisitionConfig) (w w1 : world) (data : string) :
  fs w !! download_file_path config = Some (File data) →
  zip_infolist data = None →
  Path_mkdir (extract_dir config) w = (Ret tt, w1) →
  extract_all zip_infolist config w
  = (Raise BadZipFile, add_event (EvZipOpen (download_file_path config)) w1).
Proof.
  intros Hf Hz Hmk. rewrite extract_all_eq. erewrite bind_Ret; last exact Hmk.
  destruct (Path_mkdir_towards _ _ _ _ Hmk) as (_ & Hkept & _).
  pose proof (Hkept _ _ Hf) as Hf1.
  unfold validate_and_extract. erewrite bind_Ret; last by rewrite missing_and_empty_eq, Hf1.
  erewrite bind_Ret; last reflexivity.
  unfold ZipFile, read_file. unfold_M. simpl. by rewrite Hf1, Hz.
Qed.

Lemma extract_member_file_kept dest m t data :
  arcname m ++ dest ≠ t → preserves (file_kept t data) (extract_member dest m).
Proof.
  intros Hne. unfold extract_member.
  apply preserves_bind; [apply _ | (apply Path_exists_same; apply _) |]. intros e.
  apply preserves_bind; [apply _ | |].
  { destruct e; [(apply preserves_mret; apply _) |].
    apply os_makedirs_preserves; [apply _ |]. intros q.
    eapply preserves_mono; [| apply os_mkdir_entries_kept]. apply entries_kept_file_kept. }
  intros _. destruct (body m) as [d|].
  - intros w r w' Hrun Ht. rewrite (write_file_others _ _ _ _ _ Hrun); [done | congruence].
  - apply preserves_bind; [apply _ | (apply Path_is_dir_preserves; apply _) |].
    intros []; [(apply preserves_mret; apply _) |].
    eapply preserves_mono; [| apply os_mkdir_entries_kept]. apply entries_kept_file_kept.
Qed.

Lemma extractall_file_kept dest ms t data :
  Forall (λ m, arcname m ++ dest ≠ t) ms → preserves (file_kept t data) (extractall ms dest).
Proof.
  induction 1 as [|m ms Hm _ IH]; simpl; [apply preserves_mret; apply _ |].
  apply preserves_bind; [apply _ | by apply extract_member_file_kept | done].
Qed.

Lemma extractall_app ms1 ms2 dest w :
  extractall (ms1 ++ ms2) dest w = (extractall ms1 dest;; extractall ms2 dest) w.
Proof.
  revert w. induction ms1 as [|m ms1 IH]; intros w; simpl; [done |].
  unfold mbind, M_bind in *. destruct (extract_member dest m w) as [[[]|e] w1]; [| done].
  apply IH.
Qed.

Lemma extract_member_Ret dest m data w w' :
  body m = Some data →
  extract_member dest m w = (Ret tt, w') →
  fs w' !! (arcname m ++ dest) = Some (File data).
Proof.
  intros Hb. unfold extract_member. rewrite Hb. unfold mbind at 1, M_bind at 1.
  rewrite Path_exists_eq. unfold mbind, M_bind.
  destruct (if bool_decide _ then _ else _) as [[[]|e] w1]; [| done].
  apply write_file_Ret.
Qed.

(** X11: when [extract_all] returns, every file entry of the archive is
    in place under [extract_dir] with its bytes; of several entries with
    one name this is the last. *)
Theorem extract_all_writes_entries (config : DataAcquisitionConfig) (w w' : world)
    (archive : string) (before after : list zip_member) (m : zip_member) (data : string) :
  fs w !! download_file_path config = Some (File archive) →
  zip_infolist archive = Some (before ++ m :: after) →
  body m = Some data →
  Forall (λ m', arcname m' ≠ arcname m) after →
  extract_all zip_infolist config w = (Ret tt, w') →
  fs w' !! (arcname m ++ extract_dir config) = Some (File data).
Proof.
  intros Hf Hz Hb Hafter. rewrite extract_all_eq. unfold mbind at 1, M_bind at 1.
  destruct (Path_mkdir (extract_dir config) w) as [[[]|e] w1] eqn:Hmk; [| done].
  destruct (Path_mkdir_towards _ _ _ _ Hmk) as (_ & Hkept & _).
  pose proof (Hkept _ _ Hf) as Hf1.
  unfold validate_and_extract. erewrite bind_Ret; last by rewrite missing_and_empty_eq, Hf1.
  erewrite bind_Ret; last reflexivity.
  erewrite bind_Ret; last first.
  { unfold ZipFile, read_file. unfold_M. simpl. rewrite Hf1, Hz. reflexivity. }
  rewrite extractall_app. unfold mbind at 1, M_bind at 1.
  destruct (extractall before (extract_dir config) _) as [[[]|e] w2]; [| done].
  simpl. unfold mbind at 1, M_bind at 1.
  destruct (extract_member (extract_dir config) m w2) as [[[]|e] w3] eqn:Hm; [| done].
  intros Hrest. eapply (extractall_file_kept (extract_dir config) after); [| exact Hrest |].
  - eapply Forall_impl; [exact Hafter |]. simpl. intros m' Hne Heq.
    by apply app_inv_tail in Heq.
  - by eapply extract_member_Ret.
Qed.

Lemma extract_member_outside_kept dest m : preserves (outside_kept dest) (extract_member dest m).
Proof.
  unfold extract_member.
  apply preserves_bind; [apply _ | (apply Path_exists_same; apply _) |]. intros e.
  apply preserves_bind; [apply _ | |].
  { destruct e; [(apply preserves_mret; apply _) |].
    apply os_makedirs_preserves; [apply _ |]. intros q.
    eapply preserves_mono; [| apply os_mkdir_entries_kept]. apply entries_kept_outside_kept. }
  intros _. destruct (body m) as [d|].
  - intros w r w' Hrun q n Hq Hs. rewrite (write_file_others _ _ _ _ _ Hrun); [done |].
    intros ->. destruct Hs. by apply suffix_app_r.
  - apply preserves_bind; [apply _ | (apply Path_is_dir_preserves; apply _) |].
    intros []; [(apply preserves_mret; apply _) |].
    eapply preserves_mono; [| apply os_mkdir_entries_kept]. apply entries_kept_outside_kept.
Qed.

Lemma extractall_outside_kept dest ms : preserves (outside_kept dest) (extractall ms dest).
Proof.
  induction ms as [|m ms IH]; simpl; [apply preserves_mret; apply _ |].
  apply preserves_bind; [apply _ | apply extract_member_outside_kept | done].
Qed.

(** X12: for an [extract_dir] written without [..] (a path is read
    component by component here, so that a [..] in it would not lead back
    out of the directory before it), whatever the archive holds and
    whatever the outcome, [extract_all] leaves every entry that exists
    outside [extract_dir] as it was: files keep their content, nothing is
    removed. *)
Theorem extract_all_stays_inside (config : DataAcquisitionConfig) (w w' : world) r :
  ".." ∉ extract_dir config →
  extract_all zip_infolist config w = (r, w') →
  ∀ q n, fs w !! q = Some n → ¬ extract_dir config `suffix_of` q → fs w' !! q = Some n.
Proof.
  intros _. rewrite extract_all_eq.
  revert w r w'. change (preserves (outside_kept (extract_dir config))
    (Path_mkdir (extract_dir config);; validate_and_extract zip_infolist config)).
  apply preserves_bind; [apply _ | |].
  { eapply preserves_mono; [| apply Path_mkdir_towards].
    intros w w' H. by apply entries_kept_outside_kept, (mkdir_towards_entries_kept _ _ _ H). }
  intros _. unfold validate_and_extract.
  apply preserves_bind; [apply _ | |].
  { intros w r w'. rewrite missing_and_empty_eq. intros [= _ <-]. reflexivity. }
  intros bad. apply preserves_bind; [apply _ | |].
  { destruct bad; [(apply preserves_raise; apply _) | (apply preserves_mret; apply _)]. }
  intros _. apply preserves_bind; [apply _ | |].
  { unfold ZipFile. apply preserves_bind; [apply _ | apply preserves_emit; by intros w q n |].
    intros _. apply preserves_bind; [apply _ | (apply read_file_same; apply _) |].
    intros d. destruct (zip_infolist d);
      [(apply preserves_mret; apply _) | (apply preserves_raise; apply _)]. }
  intros ms. apply extractall_outside_kept.
Qed.

End data_acquisition_more.

Section acquisition_entry_point.
Import DataAcquisition DataAcquisitionMain.

Variable gdown_download : string → path → gmap path node → outcome unit * gmap path node.
Variable zip_infolist : string → option (list zip_member).

Lemma download_zip_existing (config : DataAcquisitionConfig) (w : world) (n : node) :
  wf_fs (fs w) →
  fs w !! download_file_path config = Some n →
  (0 < st_size n)%N →
  download_zip gdown_download config w = (Ret tt, add_event (EvStdoutSkip (st_size n)) w).
Proof.
  intros Hwf Hn Hsz. unfold download_zip. rewrite try_except_reraise.
  erewrite bind_Ret; last by (apply Path_mkdir_Dir, wf_fs_parent; eauto).
  erewrite bind_Ret; last by rewrite exists_and_nonempty_eq, Hn.
  replace (0 <? st_size n)%N with true by (symmetry; by apply N.ltb_lt).
  erewrite bind_Ret; last by apply os_stat_Some. reflexivity.
Qed.

Lemma extract_member_only_fs dest m : preserves only_fs (extract_member dest m).
Proof.
  unfold extract_member.
  apply preserves_bind; [apply _ | (apply Path_exists_same; apply _) |]. intros e.
  apply preserves_bind; [apply _ | |].
  { destruct e; [(apply preserves_mret; apply _) |].
    apply os_makedirs_preserves; [apply _ | apply os_mkdir_only_fs]. }
  intros _. destruct (body m) as [d|]; [apply write_file_only_fs |].
  apply preserves_bind; [apply _ | (apply Path_is_dir_preserves; apply _) |].
  intros []; [(apply preserves_mret; apply _) | apply os_mkdir_only_fs].
Qed.

Lemma extractall_only_fs dest ms : preserves only_fs (extractall ms dest).
Proof.
  induction ms as [|m ms IH]; simpl; [apply preserves_mret; apply _ |].
  apply preserves_bind; [apply _ | apply extract_member_only_fs | done].
Qed.

Lemma add_event_no_new_fetch ev w :
  (∀ url output, ev ≠ EvFetch url output) → no_new_fetch w (add_event ev w).
Proof.
  intros Hev url output. destruct w. simpl. rewrite elem_of_app, list_elem_of_singleton.
  intros [H | H]; [done | by destruct (Hev url output)].
Qed.

Lemma extract_all_no_new_fetch config : preserves no_new_fetch (extract_all zip_infolist config).
Proof.
  intros w r w'. rewrite extract_all_eq. revert w r w'.
  apply preserves_bind; [apply _ | |].
  { eapply preserves_mono; [| apply Path_mkdir_only_fs]. apply only_fs_no_new_fetch. }
  intros _. unfold validate_and_extract.
  apply preserves_bind; [apply _ | |].
  { intros w r w'. rewrite missing_and_empty_eq. intros [= _ <-]. reflexivity. }
  intros bad. apply preserves_bind; [apply _ | |].
  { destruct bad; [(apply preserves_raise; apply _) | (apply preserves_mret; apply _)]. }
  intros _. apply preserves_bind; [apply _ | |].
  { unfold ZipFile. apply preserves_bind; [apply _ | |].
    { apply preserves_emit. intros w. by apply add_event_no_new_fetch. }
    intros _. apply preserves_bind; [apply _ | (apply read_file_same; apply _) |].
    intros d. destruct (zip_infolist d);
      [(apply preserves_mret; apply _) | (apply preserves_raise; apply _)]. }
  intros ms. eapply preserves_mono; [| apply extractall_only_fs]. apply only_fs_no_new_fetch.
Qed.

(** X13: run on a well-formed file system where the archive exists with
    a positive size, the script never calls [gdown.download]: it prints
    the skip message and its outcome is that of [extract_all] on the
    archive as it was found. *)
Theorem main_existing_archive (config : DataAcquisitionConfig) (w w' : world) (n : node)
    (r : outcome unit) :
  wf_fs (fs w) →
  fs w !! download_file_path config = Some n →
  (0 < st_size n)%N →
  main gdown_download zip_infolist config w = (r, w') →
  extract_all zip_infolist config (add_event (EvStdoutSkip (st_size n)) w) = (r, w')
  ∧ no_new_fetch w w'.
Proof.
  intros Hwf Hn Hsz. unfold main.
  erewrite bind_Ret; last by apply download_zip_existing.
  intros Hrun. split; [done |].
  transitivity (add_event (EvStdoutSkip (st_size n)) w).
  - by apply add_event_no_new_fetch.
  - by eapply extract_all_no_new_fetch.
Qed.

(** X14: a fetch that returns and leaves, at the archive path, a file
    that is not a ZIP archive (an empty file is one) passes the check of
    [download_zip]; the script then fails in [extract_all] with
    [BadZipFile], after [extract_dir] has been created. *)
Theorem main_bad_download (config : DataAcquisitionConfig) (w w1 w3 : world)
    (f2 : gmap path node) (data : string) :
  let p := download_file_path config in
  let url := "https://drive.google.com/uc?id=" +:+ file_id config in
  Path_mkdir (parent p) w = (Ret tt, w1) →
  (∀ n, fs w1 !! p = Some n → st_size n = 0%N) →
  gdown_download url p (fs w1) = (Ret tt, f2) →
  f2 !! p = Some (File data) →
  zip_infolist data = None →
  Path_mkdir (extract_dir config) (set_fs (λ _, f2) (add_event (EvFetch url p) w1))
    = (Ret tt, w3) →
  main gdown_download zip_infolist config w = (Raise BadZipFile, add_event (EvZipOpen p) w3).
Proof.
  intros p url Hmk Hsz Hg Hf Hz Hmk2. unfold main.
  erewrite bind_Ret; last first.
  { rewrite (download_zip_after_fetch gdown_download config w w1 _ f2 Hmk Hsz Hg).
    fold p. by rewrite Hf. }
  rewrite extract_all_eq. erewrite bind_Ret; last exact Hmk2.
  destruct (Path_mkdir_towards _ _ _ _ Hmk2) as (_ & Hkept & _).
  assert (fs w3 !! p = Some (File data)) as Hf3 by (apply Hkept; by destruct w1).
  unfold p in Hf3.
  unfold validate_and_extract. erewrite bind_Ret; last by rewrite missing_and_empty_eq, Hf3.
  erewrite bind_Ret; last reflexivity.
  unfold ZipFile, read_file. unfold_M. simpl. by rewrite Hf3, Hz.
Qed.

End acquisition_entry_point.

(** ** [ingest_db] beyond its last file *)

Global Instance only_db_preorder : PreOrder only_db.
Proof.
  split; [by intros [] |]. intros w1 w2 w3 H12 H23. unfold only_db in *.
  rewrite H23, H12. by destruct w1.
Qed.

Global Instance db_stays_down_preorder : PreOrder db_stays_down.
Proof.
  split; [by intros w |]. intros w1 w2 w3 H12 H23 H. unfold db_stays_down in *.
  rewrite <- (H12 H). apply H23. by rewrite (H12 H).
Qed.

Section ingest_db_more.
Import DataIO IngestDb.

Variable pd_parse_csv : string → option DataFrame.
Variable box_conversion : string → ConfigBox → option yaml.

Local Abbreviation pd_read_csv := (pd_read_csv pd_parse_csv).
Local Abbreviation ingest_files := (ingest_files pd_parse_csv).
Local Abbreviation ingest_db := (ingest_db pd_parse_csv box_conversion).

Lemma getattr_same (R : relation world) `{!PreOrder R} v key :
  preserves R (getattr box_conversion v key).
Proof.
  destruct v; simpl; try (apply preserves_raise; apply _).
  destruct (assoc key items); [(apply preserves_mret; apply _) |].
  destruct (box_conversion key items);
    [(apply preserves_mret; apply _) | (apply preserves_raise; apply _)].
Qed.

Lemma Path_same (R : relation world) `{!PreOrder R} v : preserves R (Path v).
Proof. destruct v; simpl; ((apply preserves_raise; apply _) || (apply preserves_mret; apply _)). Qed.

Lemma os_listdir_same (R : relation world) `{!PreOrder R} d : preserves R (os_listdir d).
Proof.
  intros w r w'. unfold os_listdir. unfold_M.
  destruct (fs w !! d) as [[|]|]; intros [= _ <-]; reflexivity.
Qed.

Lemma pd_read_csv_same (R : relation world) `{!PreOrder R} p : preserves R (pd_read_csv p).
Proof.
  apply preserves_bind; [apply _ | (apply read_file_same; apply _) |].
  intros data. destruct (pd_parse_csv data);
    [(apply preserves_mret; apply _) | (apply preserves_raise; apply _)].
Qed.

(** Of all that [ingest_db] calls, only [to_sql] changes the world. *)
Lemma ingest_db_preserves (R : relation world) `{!PreOrder R} config :
  (∀ name df, preserves R (to_sql_replace name df)) → preserves R (ingest_db config).
Proof.
  intros Hsql. unfold IngestDb.ingest_db, get_db_engine.
  apply preserves_bind; [apply _ | (apply preserves_mret; apply _) |]. intros _.
  apply preserves_bind; [apply _ | (apply getattr_same; apply _) |]. intros database.
  apply preserves_bind; [apply _ | (apply getattr_same; apply _) |]. intros table_name.
  apply preserves_bind; [apply _ | (apply getattr_same; apply _) |]. intros database'.
  apply preserves_bind; [apply _ | (apply getattr_same; apply _) |]. intros data_dir.
  apply preserves_bind; [apply _ | (apply Path_same; apply _) |]. intros dir.
  apply preserves_bind; [apply _ | (apply os_listdir_same; apply _) |]. intros files.
  induction files as [|file rest IH]; simpl; [apply preserves_mret; apply _ |].
  apply preserves_bind; [apply _ | | done].
  destruct (endswith file ".csv"); [| apply preserves_mret; apply _].
  apply preserves_bind; [apply _ | (apply pd_read_csv_same; apply _) | intros df; apply Hsql].
Qed.

(** X15: whatever the configuration, the directory and the outcome,
    [ingest_db] changes nothing but the database: no file is written,
    renamed or removed and nothing is printed.  With the database out of
    reach it changes nothing at all. *)
Theorem ingest_db_touches_only_db (config : ConfigBox) (w w' : world) r :
  ingest_db config w = (r, w') →
  w' = set_db (db w') w ∧ (db w = None → w' = w).
Proof.
  intros Hrun. split.
  - revert w r w' Hrun. change (preserves only_db (ingest_db config)).
    apply ingest_db_preserves; [apply _ |]. intros name df w r w'.
    unfold to_sql_replace, only_db.
    destruct (db w), name; intros [= _ <-]; by destruct w.
  - revert w r w' Hrun. change (preserves db_stays_down (ingest_db config)).
    apply ingest_db_preserves; [apply _ |]. intros name df w r w'.
    unfold to_sql_replace, db_stays_down. intros Hrun Hdb. rewrite Hdb in Hrun.
    by injection Hrun as _ <-.
Qed.

Lemma bind_ext {A B} (m : M A) (k1 k2 : A → M B) w :
  (∀ a w', k1 a w' = k2 a w') → (m ≫= k1) w = (m ≫= k2) w.
Proof. intros H. unfold mbind, M_bind. by destruct (m w) as [[a|e] w']. Qed.

(** X16: the loop of [ingest_db] looks at the names ending in [.csv]
    only: its outcome and its effect are those of the loop over these
    names, in the order of the listing.  For a listing without such a
    name the loop reads no file and does not contact the database: the
    world is as before, also when the database is out of reach and when
    the configured table name is not a string. *)
Theorem ingest_files_only_csv (table_name : yaml) (data_dir : path) (files : list string)
    (w : world) :
  ingest_files table_name data_dir files w
  = ingest_files table_name data_dir (csv_files files) w
  ∧ (csv_files files = [] → ingest_files table_name data_dir files w = (Ret tt, w)).
Proof.
  assert (∀ w, ingest_files table_name data_dir files w
               = ingest_files table_name data_dir (csv_files files) w) as Heq.
  { clear w. induction files as [|file rest IH]; intros w; [done |].
    unfold csv_files. rewrite filter_cons. fold (csv_files rest).
    destruct (endswith file ".csv") eqn:E; simpl.
    - try rewrite decide_True by done. simpl. rewrite E.
      apply bind_ext. intros _ w'. apply IH.
    - try rewrite decide_False by done. rewrite E.
      unfold mbind at 1, M_bind at 1. simpl. apply IH. }
  split; [apply Heq |]. intros Hnone. by rewrite Heq, Hnone.
Qed.



End ingest_db_more.

(** ** [DataIngestion] *)

Lemma string_append_assoc (a b c : string) : (a +:+ b) +:+ c = a +:+ (b +:+ c).
Proof.
  induction a as [|x a IH]; [done |].
  change (String x ((a +:+ b) +:+ c) = String x (a +:+ (b +:+ c))). by rewrite IH.
Qed.

Lemma string_append_empty (a : string) : a +:+ "" = a.
Proof.
  induction a as [|x a IH]; [done |].
  change (String x (a +:+ "") = String x a). by rewrite IH.
Qed.

Global Instance files_grow_preorder : PreOrder files_grow.
Proof.
  split.
  - intros w. split; [done |]. intros q data Hq. exists "". by rewrite string_append_empty.
  - intros w1 w2 w3 [Hd12 H12] [Hd23 H23]. split; [congruence |].
    intros q data Hq. destruct (H12 _ _ Hq) as [m1 H1]. destruct (H23 _ _ H1) as [m2 H2].
    exists (m1 +:+ m2). by rewrite <- string_append_assoc.
Qed.

Lemma stream_write_files_grow p text : preserves files_grow (stream_write p text).
Proof.
  intros w r w' [= _ <-]. split; [by destruct w |]. intros q data Hq.
  unfold set_fs. simpl. destruct (fs w !! p) as [[old|]|] eqn:Ep;
    try (exists ""; by rewrite string_append_empty).
  destruct (decide (q = p)) as [-> | Hne].
  - rewrite lookup_insert_eq. exists text. congruence.
  - rewrite lookup_insert_ne by done. exists "". by rewrite string_append_empty.
Qed.

Global Instance db_kept_preorder : PreOrder db_kept.
Proof. split; [by intros w | intros w1 w2 w3 H12 H23; unfold db_kept in *; congruence]. Qed.

Section logger_records.
Import LoggingSetup.

Lemma handle_all_files_grow hs name levelno levelname r :
  preserves files_grow (handle_all hs name levelno levelname r).
Proof.
  induction hs as [|h rest IH]; simpl; [apply preserves_mret; apply _ |].
  apply preserves_bind; [apply _ | | done].
  unfold Handler_handle. case_decide; [| apply preserves_mret; apply _].
  destruct (stream h); [apply stream_write_files_grow |].
  apply preserves_emit. intros w. split; [by destruct w |]. intros q data Hq.
  exists "". rewrite string_append_empty. by destruct w.
Qed.

Lemma Logger_info_files_grow l name r : preserves files_grow (Logger_info l name r).
Proof.
  intros w o w'. unfold Logger_info.
  destruct (objects w !! l) as [lg|]; [| intros [= _ <-]; reflexivity].
  case_decide; [| intros [= _ <-]; reflexivity].
  generalize (root_handlers w). intros rh.
  apply (preserves_bind files_grow (handle_all (handlers lg) name INFO "INFO" r)
           (λ _, if propagate lg then handle_all rh name INFO "INFO" r else mret tt)).
  - apply handle_all_files_grow.
  - intros _. destruct (propagate lg); [apply handle_all_files_grow |].
    apply preserves_mret; apply _.
Qed.



End logger_records.

Section data_ingestion.
Import DataIO Configuration EntityConfig ConfigurationAccess LoggingSetup Exception DataIngestion.

Variable str_exn : exn → string.
Variable traceback_of : error → traceback.
Variable create_engine : string → outcome unit.
Variable to_csv_text : DataFrame → string.
Variable clock : nat → string.
Variable env : environ.

Local Abbreviation str_error := (str_error str_exn).
Local Abbreviation raise_CustomException := (raise_CustomException str_exn traceback_of).
Local Abbreviation try_CustomException := (try_CustomException str_exn traceback_of).
Local Abbreviation logger_info := (logger_info clock).
Local Abbreviation _get_db_engine := (_get_db_engine str_exn traceback_of create_engine env).
Local Abbreviation load_data_from_db :=
  (load_data_from_db str_exn traceback_of create_engine to_csv_text clock env).



Lemma preservesE_bind (R : relation world) `{!PreOrder R} {A B} (m : ME A) (k : A → ME B) :
  preservesE R m → (∀ a, preservesE R (k a)) → preservesE R (m ≫= k).
Proof.
  intros Hm Hk w r w'. unfold mbind, ME_bind.
  destruct (m w) as [[e|a] w1] eqn:E.
  - intros [= <- <-]. by eapply Hm.
  - intros Hrun. transitivity w1; [by eapply Hm | by eapply Hk].
Qed.

Lemma preservesE_lift (R : relation world) {A} (m : M A) :
  preserves R m → preservesE R (lift m).
Proof.
  intros Hm w r w'. unfold lift. destruct (m w) as [[a|e] w1] eqn:E;
    intros [= _ <-]; by eapply Hm.
Qed.

(** The message [error_message_details] builds for [e]. *)
Lemma raise_CustomException_eq {A} (e : error) (w : world) :
  let tb := traceback_of e in
  let msg :=
    "Error occurred in python script - " +:+ co_filename tb +:+ ", "
    +:+ "line number - " +:+ pretty (tb_lineno tb) +:+ ", "
    +:+ "error message - " +:+ str_error e in
  @DataIngestion.raise_CustomException str_exn traceback_of A e w
  = (inl (Enriched {| args := e; error_message := msg |}), (logging_error msg w).2).
Proof. reflexivity. Qed.

Lemma raise_CustomException_files_grow {A} e : preservesE files_grow (@DataIngestion.raise_CustomException str_exn traceback_of A e).
Proof.
  intros w r w'. rewrite raise_CustomException_eq. intros [= _ <-]. split; [done |].
  intros q data Hq. exists "". by rewrite string_append_empty.
Qed.

Lemma try_CustomException_preserves (R : relation world) `{!PreOrder R} {A} (body : ME A) :
  preservesE R body → (∀ e, preservesE R (@DataIngestion.raise_CustomException str_exn traceback_of A e)) →
  preservesE R (try_CustomException body).
Proof.
  intros Hb Hr w r w'. unfold DataIngestion.try_CustomException.
  destruct (body w) as [[e|a] w1] eqn:E.
  - intros Hrun. transitivity w1; [by eapply Hb | by eapply Hr].
  - intros [= <- <-]. by eapply Hb.
Qed.

(** X18: [load_data_from_db] lets nothing out but [CustomException]:
    whatever fails inside (the engine, the query, the write of the
    snapshot), the caller gets the exception whose message names file and
    line of the traceback before the text of the cause, and that message
    is the last thing the root logger received, at level ERROR. *)
Theorem load_data_from_db_raises_CustomException (logger : nat) (self : DataIngestion)
    (w w' : world) (e : error) :
  load_data_from_db logger self w = (inl e, w') →
  ∃ c, e = Enriched c
    ∧ CustomException_str c =
        "Error occurred in python script - " +:+ co_filename (traceback_of (args c)) +:+ ", "
        +:+ "line number - " +:+ pretty (tb_lineno (traceback_of (args c))) +:+ ", "
        +:+ "error message - " +:+ str_error (args c)
    ∧ last (trace w') = Some (EvRootLog "ERROR" (CustomException_str c))
    ∧ root_handlers w' ≠ [].
Proof.
  unfold DataIngestion.load_data_from_db.
  match goal with
  | |- DataIngestion.try_CustomException _ _ ?body w = _ → _ => generalize body
  end.
  intros body. unfold DataIngestion.try_CustomException.
  destruct (body w) as [[cause|a] w1]; [| done].
  rewrite raise_CustomException_eq. intros [= <- <-].
  eexists. split; [reflexivity |]. simpl. split; [done |].
  split; [by rewrite last_snoc |]. by destruct (root_handlers w1).
Qed.


Lemma only_fs_db_kept w w' : only_fs w w' → db_kept w w'.
Proof. unfold only_fs, db_kept. intros ->. by destruct w. Qed.


Lemma logger_info_db_kept logger i msg : preservesE db_kept (logger_info logger i msg).
Proof.
  apply preservesE_lift. eapply preserves_mono; [| apply Logger_info_files_grow].
  by intros w w' [H _].
Qed.

Lemma raise_CustomException_db_kept {A} e :
  preservesE db_kept (@DataIngestion.raise_CustomException str_exn traceback_of A e).
Proof. intros w r w'. rewrite raise_CustomException_eq. by intros [= _ <-]. Qed.

Lemma _get_db_engine_db_kept self : preservesE db_kept (_get_db_engine self).
Proof.
  apply try_CustomException_preserves; [apply _ | | apply @raise_CustomException_db_kept].
  apply preservesE_bind; [apply _ | |].
  - apply preservesE_lift. by intros w r w' [= _ <-].
  - intros _ w r w'. by intros [= _ <-].
Qed.

Lemma pd_read_sql_same sql con w r w' : pd_read_sql sql con w = (r, w') → w' = w.
Proof.
  unfold pd_read_sql. destruct (db w) as [tables|]; [| by intros [= _ <-]].
  destruct (strip_prefix _ sql) as [table|]; [| by intros [= _ <-]].
  destruct (tables !! table); by intros [= _ <-].
Qed.

Lemma load_data_from_db_db_kept logger self : preservesE db_kept (load_data_from_db logger self).
Proof.
  apply try_CustomException_preserves; [apply _ | | apply @raise_CustomException_db_kept].
  apply preservesE_bind; [apply _ | apply logger_info_db_kept |]. intros _.
  apply preservesE_bind; [apply _ | apply _get_db_engine_db_kept |]. intros engine.
  apply preservesE_bind; [apply _ | apply logger_info_db_kept |]. intros _.
  apply preservesE_bind; [apply _ | apply logger_info_db_kept |]. intros _.
  apply preservesE_bind; [apply _ | |].
  { apply preservesE_lift. intros w r w' Hrun. apply pd_read_sql_same in Hrun as ->. reflexivity. }
  intros df.
  apply preservesE_bind; [apply _ | apply logger_info_db_kept |]. intros _.
  apply preservesE_bind; [apply _ | apply logger_info_db_kept |]. intros _.
  apply preservesE_bind; [apply _ | | intros _; apply logger_info_db_kept].
  apply preservesE_lift. eapply preserves_mono; [| apply write_file_only_fs].
  apply only_fs_db_kept.
Qed.

Lemma bindE_inr_inv {A B} (m : ME A) (k : A → ME B) w b w' :
  (m ≫= k) w = (inr b, w') → ∃ a w1, m w = (inr a, w1) ∧ k a w1 = (inr b, w').
Proof.
  unfold mbind, ME_bind. destruct (m w) as [[e|a] w1]; [done |]. intros H. by exists a, w1.
Qed.

Lemma lift_inr_inv {A} (m : M A) w a w' : lift m w = (inr a, w') → m w = (Ret a, w').
Proof. unfold lift. destruct (m w) as [[x|e] w1]; [| done]. by intros [= -> ->]. Qed.

Lemma try_CustomException_inr {A} (body : ME A) w a w' :
  try_CustomException body w = (inr a, w') → body w = (inr a, w').
Proof.
  unfold DataIngestion.try_CustomException. destruct (body w) as [[e|x] w1]; [| done].
  by rewrite raise_CustomException_eq.
Qed.

(** X20: [load_data_from_db] reads the database and never writes it,
    whatever the outcome.  When it returns, the table [flight_prices] was
    there and the snapshot path holds a regular file.  A stream that a
    handler opened in mode ["w"] writes at its own position, which the
    world does not keep; so, if no handler that the records can reach
    (those of the module's logger and of the root logger) has such a
    stream on the snapshot path, the snapshot file starts with the CSV
    text of the table's frame, and what follows it can only be what a
    handler in mode ["a"] has appended. *)
Theorem load_data_from_db_reads_table (logger : nat) (self : DataIngestion) (w w' : world)
    (r : error + unit) :
  let file_path := joinpath (raw_data_path (config self)) RAW_FILE in
  load_data_from_db logger self w = (r, w') →
  db w' = db w
  ∧ (r = inr tt →
     ∃ tables df content,
       db w = Some tables
       ∧ tables !! "flight_prices" = Some df
       ∧ fs w' !! file_path = Some (File content)
       ∧ ((∀ lg h, objects w !! logger = Some lg →
                   h ∈ handlers lg ++ root_handlers w →
                   stream h ≠ FileStream file_path ModeW) →
          ∃ more, content = to_csv_text df +:+ more)).
Proof.
  intros file_path Hrun. split; [by eapply load_data_from_db_db_kept |]. intros ->.
  apply try_CustomException_inr in Hrun.
  apply bindE_inr_inv in Hrun as ([] & w1 & H0 & Hrun).
  apply bindE_inr_inv in Hrun as (engine & w2 & Heng & Hrun).
  apply bindE_inr_inv in Hrun as ([] & w3 & H1 & Hrun).
  apply bindE_inr_inv in Hrun as ([] & w4 & H2 & Hrun).
  apply bindE_inr_inv in Hrun as (df & w5 & Hsql & Hrun).
  apply bindE_inr_inv in Hrun as ([] & w6 & H3 & Hrun).
  apply bindE_inr_inv in Hrun as ([] & w7 & H4 & Hrun).
  apply bindE_inr_inv in Hrun as ([] & w8 & Hcsv & H5).
  apply logger_info_db_kept in H0, H1, H2. apply _get_db_engine_db_kept in Heng.
  apply lift_inr_inv in Hsql. unfold pd_read_sql in Hsql.
  destruct (db w4) as [tables|] eqn:Hdb; [| done]. simpl in Hsql.
  destruct (tables !! "flight_prices") as [df'|] eqn:Htab; [| done].
  injection Hsql as -> ->.
  apply lift_inr_inv, write_file_Ret in Hcsv.
  apply lift_inr_inv, Logger_info_files_grow in H5 as [_ H5].
  destruct (H5 _ _ Hcsv) as [more Hmore].
  exists tables, df, (to_csv_text df +:+ more).
  split; [unfold db_kept in *; congruence |]. split; [done |]. split; [exact Hmore |].
  intros _. by exists more.
Qed.




End data_ingestion.

(** ** The scaffold script *)

Global Instance only_new_entries_preorder : PreOrder only_new_entries.
Proof.
  split.
  - intros w. split; [reflexivity |]. split; [reflexivity | congruence].
  - intros w1 w2 w3 (Ha & Hb & Hc) (Ha' & Hb' & Hc').
    split; [by etrans |]. split; [by etrans |].
    intros q n Hq1 Hq3. destruct (fs w2 !! q) as [n2|] eqn:E2; [| eauto].
    rewrite (Hb' _ _ E2) in Hq3. injection Hq3 as <-. eauto.
Qed.

Lemma only_new_dirs_only_new_entries w w' : only_new_dirs w w' → only_new_entries w w'.
Proof. intros (H1 & H2 & H3). repeat split; [done.. |]. intros q n Hq Hq'. left. eauto. Qed.

Lemma Path_mkdir_only_new_entries p : preserves only_new_entries (Path_mkdir p).
Proof.
  eapply preserves_mono; [| apply Path_mkdir_towards]. intros w w' H.
  by apply only_new_dirs_only_new_entries, (mkdir_towards_only_new_dirs p).
Qed.

Lemma Path_touch_only_new_entries p : preserves only_new_entries (Path_touch p).
Proof.
  intros w r w'. unfold Path_touch. unfold_M.
  destruct (fs w !! p) as [n|] eqn:Ep; [intros [= _ <-]; reflexivity |].
  destruct (fs w !! parent p) as [[|]|], p as [|x q]; intros [= _ <-]; try reflexivity.
  split; [by destruct w |]. split.
  - intros q' n Hq'. destruct w. simpl in *. rewrite lookup_insert_ne; [done | congruence].
  - intros q' n Hq'. destruct w. simpl in *.
    destruct (decide (q' = x :: q)) as [-> | Hne].
    + rewrite lookup_insert_eq. intros [= <-]. by right.
    + rewrite lookup_insert_ne by done. congruence.
Qed.

Lemma Path_touch_Ret p w w' : Path_touch p w = (Ret tt, w') → is_Some (fs w' !! p).
Proof.
  unfold Path_touch. unfold_M.
  destruct (fs w !! p) as [n|] eqn:Ep; [intros [= <-]; by eexists |].
  destruct (fs w !! parent p) as [[|]|], p as [|x q]; try done.
  intros [= <-]. destruct w. simpl. rewrite lookup_insert_eq. by eexists.
Qed.

Lemma Path_touch_succeeds p w :
  p ≠ [] → fs w !! parent p = Some Dir → ∃ w', Path_touch p w = (Ret tt, w').
Proof.
  intros Hp Hpar. unfold Path_touch. unfold_M.
  destruct (fs w !! p) as [n|]; [by eexists |]. rewrite Hpar.
  destruct p; [done | by eexists].
Qed.

(** In a well-formed file system whatever lies above an entry is a
    directory. *)
Lemma wf_fs_suffix f p q :
  wf_fs f → is_Some (f !! p) → q `suffix_of` p → q ≠ p → f !! q = Some Dir.
Proof.
  intros Hwf. induction p as [|x p IH]; intros Hp Hs Hne.
  - apply suffix_nil_inv in Hs. done.
  - destruct q as [|y q]; [by apply Hwf |].
    apply suffix_cons_inv in Hs as [Heq | Hs]; [done |].
    pose proof (wf_fs_parent f (x :: p) Hwf Hp) as Hpar. simpl in Hpar.
    destruct (decide (y :: q = p)) as [<- | Hqp]; [done |].
    apply IH; [by eexists | done | done].
Qed.

Section template.
Import DataIO Stdout Template.

Lemma bindP_Ret {A B} (m : P A) (k : A → P B) s a s' :
  m s = (Ret a, s') → (m ≫= k) s = k a s'.
Proof. intros H. unfold mbind, P_bind. by rewrite H. Qed.

Lemma bindP_inv {A B} (m : P A) (k : A → P B) s b s' :
  (m ≫= k) s = (Ret b, s') → ∃ a s1, m s = (Ret a, s1) ∧ k a s1 = (Ret b, s').
Proof.
  unfold mbind, P_bind. destruct (m s) as [[a|e] s1]; [| done]. intros H. by exists a, s1.
Qed.

Lemma lift_Ret {A} (m : M A) s a w' : m s.1 = (Ret a, w') → lift m s = (Ret a, (w', s.2)).
Proof. intros H. unfold lift. by rewrite H. Qed.

Lemma lift_inv {A} (m : M A) s r s' : lift m s = (r, s') → m s.1 = (r, s'.1) ∧ s'.2 = s.2.
Proof. unfold lift. destruct (m s.1) as [r' w']. by intros [= <- <-]. Qed.

Section preservesP.
Context (R : relation world) `{!PreOrder R}.

Lemma preservesP_mret {A} (a : A) : preservesP R (mret a).
Proof. intros s r s' [= _ <-]. split; reflexivity. Qed.

Lemma preservesP_bind {A B} (m : P A) (k : A → P B) :
  preservesP R m → (∀ a, preservesP R (k a)) → preservesP R (m ≫= k).
Proof.
  intros Hm Hk s r s'. unfold mbind, P_bind.
  destruct (m s) as [[a|e] s1] eqn:E.
  - intros Hrun. destruct (Hm _ _ _ E), (Hk _ _ _ _ Hrun). split; by etrans.
  - intros [= <- <-]. by eapply Hm.
Qed.

Lemma preservesP_lift {A} (m : M A) : preserves R m → preservesP R (lift m).
Proof.
  intros Hm s r s' Hrun. apply lift_inv in Hrun as [Hrun ->]. split; [by eapply Hm | done].
Qed.

Lemma preservesP_print line : preservesP R (print line).
Proof. intros s r s' [= _ <-]. split; [reflexivity | by apply prefix_app_r]. Qed.

End preservesP.

Lemma create_folders_preserves (R : relation world) `{!PreOrder R} l :
  (∀ p, preserves R (Path_mkdir p)) → preservesP R (create_folders l).
Proof.
  intros Hmk. induction l as [|f l IH]; simpl; [apply preservesP_mret; apply _ |].
  apply preservesP_bind; [apply _ | by apply preservesP_lift |]. intros _.
  apply preservesP_bind; [apply _ | (apply preservesP_print; apply _) | done].
Qed.

Lemma create_files_only_new_entries folder files :
  preservesP only_new_entries (create_files folder files).
Proof.
  induction files as [|f l IH]; simpl; [apply preservesP_mret; apply _ |].
  apply preservesP_bind; [apply _ | |].
  { apply preservesP_lift. apply Path_exists_same; apply _. }
  intros e. apply preservesP_bind; [apply _ | | done].
  destruct e; [apply preservesP_mret; apply _ |].
  apply preservesP_bind; [apply _ | | intros _; apply preservesP_print; apply _].
  apply preservesP_lift, Path_touch_only_new_entries.
Qed.

Lemma create_placeholders_only_new_entries items :
  preservesP only_new_entries (create_placeholders items).
Proof.
  induction items as [|[folder files] l IH]; simpl; [apply preservesP_mret; apply _ |].
  apply preservesP_bind; [apply _ | apply create_files_only_new_entries | done].
Qed.

Lemma template_only_new_entries : preservesP only_new_entries template.
Proof.
  unfold template.
  apply preservesP_bind; [apply _ | |].
  { apply create_folders_preserves; [apply _ | apply Path_mkdir_only_new_entries]. }
  intros _. apply preservesP_bind; [apply _ | apply create_placeholders_only_new_entries |].
  intros _. repeat (apply preservesP_bind; [apply _ | (apply preservesP_print; apply _) |];
                    intros _).
  apply preservesP_print; apply _.
Qed.

(** X22: whatever it meets and however it ends, the scaffold script
    only adds: every entry that existed is as it was (no file is
    truncated, no directory replaced), every new entry is a directory or
    an empty file, and what had been printed stays. *)
Theorem template_only_adds (w w' : world) (out out' : list string) (r : outcome unit) :
  template (w, out) = (r, (w', out')) →
  (∀ q n, fs w !! q = Some n → fs w' !! q = Some n)
  ∧ (∀ q n, fs w !! q = None → fs w' !! q = Some n → n = Dir ∨ n = File "")
  ∧ w' = set_fs (λ _, fs w') w
  ∧ out `prefix_of` out'.
Proof.
  intros Hrun. destruct (template_only_new_entries _ _ _ Hrun) as [(H1 & H2 & H3) H4].
  done.
Qed.

Lemma create_folders_Ret l s s' :
  create_folders l s = (Ret tt, s') →
  Forall (λ p, fs s'.1 !! p = Some Dir) (folder_paths l).
Proof.
  revert s. induction l as [|f l IH]; intros s; simpl; [by constructor |].
  intros Hrun.
  apply bindP_inv in Hrun as ([] & s1 & Hmk & Hrun).
  apply bindP_inv in Hrun as ([] & s2 & Hpr & Hrun).
  constructor; [| by eapply IH].
  apply lift_inv in Hmk as [Hmk _]. apply Path_mkdir_Ret in Hmk.
  injection Hpr as <-. simpl in Hrun.
  assert (preservesP entries_kept (create_folders l)) as Hkept.
  { apply create_folders_preserves; [apply _ |]. intros p.
    eapply preserves_mono; [| apply Path_mkdir_towards]. apply mkdir_towards_entries_kept. }
  destruct (Hkept _ _ _ Hrun) as [Hk _]. by apply Hk.
Qed.

Lemma create_files_Ret folder files s s' :
  create_files folder files s = (Ret tt, s') →
  Forall (λ p, is_Some (fs s'.1 !! p)) (placeholder_path folder <$> files).
Proof.
  revert s. induction files as [|f l IH]; intros s; simpl; [by constructor |].
  intros Hrun.
  apply bindP_inv in Hrun as (e & s1 & Hex & Hrun).
  apply bindP_inv in Hrun as ([] & s2 & Hmake & Hrun).
  constructor; [| by eapply IH].
  apply lift_inv in Hex as [Hex Hout]. rewrite Path_exists_eq in Hex.
  injection Hex as <- Hs1.
  destruct (create_files_only_new_entries folder l _ _ _ Hrun) as [(_ & Hk & _) _].
  assert (is_Some (fs s2.1 !! placeholder_path folder f)) as [n Hn]; [| by eexists; apply Hk].
  case_bool_decide as Hdec.
  - injection Hmake as <-. by rewrite <- Hs1.
  - apply bindP_inv in Hmake as ([] & s3 & Ht & Hpr). injection Hpr as <-.
    apply lift_inv in Ht as [Ht _]. by apply Path_touch_Ret in Ht.
Qed.

Lemma create_placeholders_Ret items s s' :
  create_placeholders items s = (Ret tt, s') →
  Forall (λ p, is_Some (fs s'.1 !! p)) (placeholder_paths items).
Proof.
  revert s. induction items as [|[folder files] l IH]; intros s; simpl; [by constructor |].
  intros Hrun. apply bindP_inv in Hrun as ([] & s1 & Hf & Hrun).
  apply Forall_app. split; [| by eapply IH].
  apply create_files_Ret in Hf.
  destruct (create_placeholders_only_new_entries l _ _ _ Hrun) as [(_ & Hk & _) _].
  eapply Forall_impl; [exact Hf |]. intros p [n Hn]. eexists. by apply Hk.
Qed.

Lemma create_folders_again l s :
  Forall (λ p, fs s.1 !! p = Some Dir) (folder_paths l) →
  create_folders l s
  = (Ret tt, (s.1, s.2 ++ ((λ f, "Created folder: " +:+ path_str (Path_of_str f)) <$> l))).
Proof.
  revert s. induction l as [|f l IH]; intros s Hall.
  { simpl. rewrite app_nil_r. by destruct s. }
  apply Forall_cons in Hall as [Hf Hall]. simpl.
  erewrite bindP_Ret; last by apply lift_Ret, Path_mkdir_Dir.
  erewrite bindP_Ret; last reflexivity.
  rewrite IH by done. simpl. by rewrite <- app_assoc.
Qed.

Lemma create_files_again folder files s :
  Forall (λ p, is_Some (fs s.1 !! p)) (placeholder_path folder <$> files) →
  create_files folder files s = (Ret tt, s).
Proof.
  induction files as [|f l IH]; intros Hall; simpl; [done |].
  apply Forall_cons in Hall as [Hf Hall].
  erewrite bindP_Ret; last by apply lift_Ret, Path_exists_eq.
  rewrite bool_decide_eq_true_2 by done.
  erewrite bindP_Ret; last reflexivity. destruct s. by apply IH.
Qed.

Lemma create_placeholders_again items s :
  Forall (λ p, is_Some (fs s.1 !! p)) (placeholder_paths items) →
  create_placeholders items s = (Ret tt, s).
Proof.
  induction items as [|[folder files] l IH]; intros Hall; simpl; [done |].
  change (placeholder_paths ((folder, files) :: l))
    with ((placeholder_path folder <$> files) ++ placeholder_paths l) in Hall.
  apply Forall_app in Hall as [Hf Hall].
  erewrite bindP_Ret; last by apply create_files_again. by apply IH.
Qed.

(** What a run that completed has made. *)
Lemma template_Ret w out w1 out1 :
  template (w, out) = (Ret tt, (w1, out1)) →
  Forall (λ p, fs w1 !! p = Some Dir) (folder_paths folders)
  ∧ Forall (λ p, is_Some (fs w1 !! p)) (placeholder_paths placeholder_files).
Proof.
  unfold template. intros Hrun.
  apply bindP_inv in Hrun as ([] & s1 & Hfold & Hrun).
  apply bindP_inv in Hrun as ([] & s2 & Hfiles & Hrun).
  assert (s2.1 = w1) as Hw1 by (by injection Hrun as <- _).
  clear Hrun.
  apply create_folders_Ret in Hfold.
  destruct (create_placeholders_only_new_entries _ _ _ _ Hfiles) as [(_ & Hk & _) _].
  apply create_placeholders_Ret in Hfiles. rewrite Hw1 in *.
  split; [| done]. eapply Forall_impl; [exact Hfold |]. intros p Hp. by apply Hk.
Qed.

(** X23: the script can be run again.  After a run that completed, a
    second run completes too and leaves the world exactly as it found
    it; it prints [Created folder: ...] for every folder all the same,
    no [Created placeholder file: ...] line, and the closing lines. *)
Theorem template_rerun (w w1 : world) (out out1 : list string) :
  template (w, out) = (Ret tt, (w1, out1)) →
  template (w1, out1)
  = (Ret tt,
     (w1, out1 ++ ((λ f, "Created folder: " +:+ path_str (Path_of_str f)) <$> folders)
              ++ [LF +:+ "Project scaffold created successfully!"; "Next steps:";
                  "1. Start notebook experimentation"; "2. Add modular scripts to src";
                  "3. Orchestrate and evaluate entire ML pipeline";
                  "4. Document project flow"])).
Proof.
  intros Hrun. apply template_Ret in Hrun as [Hfold Hfiles]. unfold template.
  erewrite bindP_Ret; last by apply create_folders_again.
  erewrite bindP_Ret; last by apply create_placeholders_again.
  unfold mbind, P_bind, print. simpl. by rewrite <- !app_assoc.
Qed.

Lemma create_folders_succeeds l s :
  fs s.1 !! [] = Some Dir →
  (∀ f q d, f ∈ l → q `suffix_of` Path_of_str f → fs s.1 !! q ≠ Some (File d)) →
  ∃ s', create_folders l s = (Ret tt, s').
Proof.
  revert s. induction l as [|f l IH]; intros s Hroot Hno; simpl; [by eexists |].
  destruct (Path_mkdir_succeeds (Path_of_str f) s.1 Hroot) as [w1 Hmk].
  { intros q d Hq. apply (Hno f); [by left | done]. }
  erewrite bindP_Ret; last by apply lift_Ret.
  erewrite bindP_Ret; last reflexivity. simpl.
  destruct (Path_mkdir_towards _ _ _ _ Hmk) as (_ & Hk & Hnew).
  apply IH; simpl; [by apply Hk |].
  intros f' q d Hf' Hq Hfile.
  destruct (fs s.1 !! q) as [n|] eqn:E.
  - rewrite (Hk _ _ E) in Hfile. injection Hfile as ->.
    by apply (Hno f' q d); [right | |].
  - by destruct (Hnew _ _ E Hfile).
Qed.

Lemma create_files_succeeds folder files s :
  Forall (λ p, p ≠ [] ∧ fs s.1 !! parent p = Some Dir) (placeholder_path folder <$> files) →
  ∃ s', create_files folder files s = (Ret tt, s').
Proof.
  revert s. induction files as [|f l IH]; intros s Hall; simpl; [by eexists |].
  apply Forall_cons in Hall as [[Hne Hpar] Hall].
  erewrite bindP_Ret; last by apply lift_Ret, Path_exists_eq.
  case_bool_decide as Hdec.
  - erewrite bindP_Ret; last reflexivity. apply IH. by destruct s.
  - destruct (Path_touch_succeeds _ s.1 Hne Hpar) as [w1 Ht].
    erewrite bindP_Ret; last first.
    { erewrite bindP_Ret; last by apply lift_Ret. reflexivity. }
    apply IH. simpl. destruct (Path_touch_only_new_entries _ _ _ _ Ht) as (_ & Hk & _).
    eapply Forall_impl; [exact Hall |]. intros p [Hp Hd]. split; [done | by apply Hk].
Qed.

Lemma create_placeholders_succeeds items s :
  Forall (λ p, p ≠ [] ∧ fs s.1 !! parent p = Some Dir) (placeholder_paths items) →
  ∃ s', create_placeholders items s = (Ret tt, s').
Proof.
  revert s. induction items as [|[folder files] l IH]; intros s Hall; simpl; [by eexists |].
  change (placeholder_paths ((folder, files) :: l))
    with ((placeholder_path folder <$> files) ++ placeholder_paths l) in Hall.
  apply Forall_app in Hall as [Hf Hall].
  destruct (create_files_succeeds folder files s Hf) as [s1 Hs1].
  erewrite bindP_Ret; last exact Hs1. apply IH.
  destruct (create_files_only_new_entries _ _ _ _ _ Hs1) as [(_ & Hk & _) _].
  eapply Forall_impl; [exact Hall |]. intros p [Hp Hd]. split; [done | by apply Hk].
Qed.

(** Every placeholder lies in one of the folders of the first loop, in a
    directory above one, or in the project root. *)
Lemma placeholders_in_folders :
  Forall (λ p, p ≠ [] ∧ Exists (λ f, parent p `suffix_of` f) (folder_paths folders))
         (placeholder_paths placeholder_files).
Proof.
  apply (bool_decide_unpack
           (Forall (λ p, p ≠ [] ∧ Exists (λ f, parent p `suffix_of` f) (folder_paths folders))
                   (placeholder_paths placeholder_files))).
  by vm_compute.
Qed.

(** The script runs to its end when no regular file is in the way of a
    folder. *)
Lemma template_returns (w : world) (out : list string) :
  wf_fs (fs w) →
  (∀ f q d, f ∈ folders → q `suffix_of` Path_of_str f → fs w !! q ≠ Some (File d)) →
  ∃ w' out', template (w, out) = (Ret tt, (w', out')).
Proof.
  intros Hwf Hno.
  destruct (create_folders_succeeds folders (w, out)) as [s1 Hs1]; [by apply Hwf | done |].
  assert (wf_fs (fs s1.1)) as Hwf1.
  { assert (preservesP wf_kept (create_folders folders)) as H
      by (apply create_folders_preserves; [apply _ | apply Path_mkdir_wf]).
    destruct (H _ _ _ Hs1) as [H1 _]. by apply H1. }
  pose proof (create_folders_Ret _ _ _ Hs1) as Hdirs.
  destruct (create_placeholders_succeeds placeholder_files s1) as [s2 Hs2].
  { eapply Forall_impl; [exact placeholders_in_folders |]. intros p [Hp Hex].
    split; [done |]. apply Exists_exists in Hex as (f & Hf & Hs).
    rewrite Forall_forall in Hdirs. specialize (Hdirs f Hf).
    destruct (decide (parent p = f)) as [-> | Hne]; [done |].
    by apply (wf_fs_suffix _ f); [| eexists | |]. }
  exists s2.1, (s2.2 ++ [LF +:+ "Project scaffold created successfully!"; "Next steps:";
                         "1. Start notebook experimentation"; "2. Add modular scripts to src";
                         "3. Orchestrate and evaluate entire ML pipeline";
                         "4. Document project flow"]).
  unfold template. erewrite bindP_Ret; last exact Hs1.
  erewrite bindP_Ret; last exact Hs2.
  unfold mbind, P_bind, print. simpl. by rewrite <- !app_assoc.
Qed.

(** X24: on a well-formed file system where no regular file stands at a
    folder of the scaffold or above one, the script completes: all eight
    folders are directories afterwards and every placeholder exists. *)
Theorem template_completes (w : world) (out : list string) :
  wf_fs (fs w) →
  (∀ f q d, f ∈ folders → q `suffix_of` Path_of_str f → fs w !! q ≠ Some (File d)) →
  ∃ w' out',
    template (w, out) = (Ret tt, (w', out'))
    ∧ Forall (λ p, fs w' !! p = Some Dir) (folder_paths folders)
    ∧ Forall (λ p, is_Some (fs w' !! p)) (placeholder_paths placeholder_files).
Proof.
  intros Hwf Hno. destruct (template_returns w out Hwf Hno) as (w' & out' & Hrun).
  exists w', out'. split; [exact Hrun |]. by apply (template_Ret w out w' out').
Qed.

End template.

(** ** [check_duplicates] *)

Section data_diagnostics.
Import Stdout DataDiagnostics.

Lemma sum_bool_cons b s : sum_bool (b :: s) = (if b then 1 else 0) + sum_bool s.
Proof. unfold sum_bool. rewrite filter_cons. by destruct b. Qed.

(** The rows that [duplicated] does not mark are the distinct rows that
    were not seen before. *)
Lemma duplicated_from_firsts seen rows :
  ∃ firsts : list (list string),
    NoDup firsts
    ∧ (∀ x, x ∈ firsts ↔ x ∈ rows ∧ x ∉ seen)
    ∧ sum_bool (duplicated_from seen rows) + length firsts = length rows.
Proof.
  revert seen. induction rows as [|r rest IH]; intros seen.
  { exists []. split; [constructor |]. split; [| done]. intros x.
    split; [by intros ?%elem_of_nil | by intros [?%elem_of_nil _]]. }
  destruct (IH (r :: seen)) as (firsts & Hnd & Hel & Hlen).
  simpl. rewrite sum_bool_cons. case_bool_decide as Hr.
  - exists firsts. split; [done |]. split; [| simpl; lia].
    intros x. rewrite Hel, not_elem_of_cons, elem_of_cons. intuition congruence.
  - exists (r :: firsts). split; [| split; [| simpl; lia]].
    + constructor; [| done]. rewrite Hel, not_elem_of_cons. intuition congruence.
    + intros x. rewrite elem_of_cons, Hel, not_elem_of_cons, elem_of_cons.
      destruct (decide (x = r)) as [-> |]; intuition congruence.
Qed.

Lemma sum_bool_duplicated_rows (rows : list (list string)) :
  sum_bool (duplicated_from [] rows) = length rows - length (remove_dups rows).
Proof.
  destruct (duplicated_from_firsts [] rows) as (firsts & Hnd & Hel & Hlen).
  assert (firsts ≡ₚ remove_dups rows) as Hperm.
  { apply NoDup_Permutation; [done | apply NoDup_remove_dups |].
    intros x. rewrite Hel, elem_of_remove_dups.
    split; [by intros [? _] | intros ?; split; [done | apply not_elem_of_nil]]. }
  rewrite <- Hperm. lia.
Qed.

Lemma sum_bool_duplicated_from_0 seen rows :
  sum_bool (duplicated_from seen rows) = 0 ↔ NoDup rows ∧ ∀ x, x ∈ rows → x ∉ seen.
Proof.
  revert seen. induction rows as [|r rest IH]; intros seen; simpl.
  { split; [intros _; split; [constructor | by intros x ?%elem_of_nil] | done]. }
  rewrite sum_bool_cons, NoDup_cons. case_bool_decide as Hr.
  - split; [lia |]. intros [_ H]. destruct (H r); [by left | done].
  - simpl. rewrite IH. split.
    + intros [Hnd H]. split; [split; [| done] |].
      * intros Hin. apply (H r Hin). by left.
      * intros x [-> | Hx]%elem_of_cons; [done |]. specialize (H x Hx).
        by apply not_elem_of_cons in H as [_ H].
    + intros [[Hnr Hnd] H]. split; [done |]. intros x Hx.
      rewrite not_elem_of_cons. split; [by intros -> | apply H; by right].
Qed.

(** X25: for a frame with columns, [check_duplicates] counts the rows
    that repeat an earlier row, that is the number of rows less the
    number of distinct rows; for a frame without columns the count is
    zero, whatever its index.  It prints the message without a number
    exactly when the count is zero (all rows distinct, or no column),
    returns the count only when asked for it, and changes nothing
    else. *)
Theorem check_duplicates_counts (df : DataFrame) (return_count : bool) (w : world)
    (out : list string) :
  let n := if decide (columns df = []) then 0
           else length (rows df) - length (remove_dups (rows df)) in
  check_duplicates df return_count (w, out)
  = (Ret (if return_count then Some n else None),
     (w, out ++ [if decide (columns df = [] ∨ NoDup (rows df))
                 then "There are no duplicate records in the data."
                 else "There are " +:+ pretty n +:+ " duplicate entries in the data."]))
  ∧ (n = 0 ↔ columns df = [] ∨ NoDup (rows df)).
Proof.
  intros n.
  assert (sum_bool (duplicated df) = n) as Hsum.
  { unfold n, duplicated. destruct (decide (columns df = [])); [done |].
    apply sum_bool_duplicated_rows. }
  assert (n = 0 ↔ columns df = [] ∨ NoDup (rows df)) as Hn.
  { rewrite <- Hsum. unfold duplicated. destruct (decide (columns df = [])) as [Hc | Hc].
    - split; [by left | done].
    - rewrite sum_bool_duplicated_from_0. split.
      + intros [Hnd _]. by right.
      + intros [Hc' | Hnd]; [done |]. split; [done |]. intros x _. apply not_elem_of_nil. }
  split; [| done]. unfold check_duplicates. rewrite Hsum.
  unfold mbind, P_bind, print, mret, P_ret. simpl.
  destruct (decide (0 < n)) as [Hpos | Hzero],
           (decide (columns df = [] ∨ NoDup (rows df))) as [Hnd | Hnd];
    try (apply Hn in Hnd; lia); try (destruct Hnd; apply Hn; lia);
    by destruct return_count.
Qed.

End data_diagnostics.

(** ** Runs on the sample inputs *)

Lemma fs_root_no_file q d : Samples.fs_root !! q ≠ Some (File d).
Proof.
  unfold Samples.fs_root. intros H. apply lookup_singleton_Some in H as [_ H]. discriminate.
Qed.

Section configuration_more_runs.
Import DataIO Configuration EntityConfig ConfigurationAccess Samples MoreSamples.


Lemma create_directories_idempotent_witness :
  let w' := (create_directories [raw_dir; ["logs"]] (world_of fs_root)).2 in
  create_directories [raw_dir; ["logs"]] w' = (Ret tt, w').
Proof.
  intros w'.
  assert (create_directories [raw_dir; ["logs"]] (world_of fs_root) = (Ret tt, w')) as Hrun
    by (vm_compute; reflexivity).
  exact (create_directories_idempotent [raw_dir; ["logs"]] (world_of fs_root) w' Hrun).
Defined.

Lemma load_yaml_only_reads_witness :
  load_yaml yaml_loader no_pairs TRAINING_CONFIG_PATH (world_of fs_root)
  = (Raise (OSError (missing_errno (fs (world_of fs_root)) TRAINING_CONFIG_PATH)
                    TRAINING_CONFIG_PATH),
     world_of fs_root).
Proof.
  assert (fs (world_of fs_root) !! TRAINING_CONFIG_PATH = None) as H
    by (vm_compute; reflexivity).
  exact (proj1 (proj2 (load_yaml_only_reads yaml_loader no_pairs TRAINING_CONFIG_PATH
                         (world_of fs_root))) H).
Defined.


Lemma get_data_ingestion_config_after_init_witness :
  ∃ cm w' p,
    ConfigurationManager_init yaml_loader no_pairs dash_conversion TRAINING_CONFIG_PATH
      (world_of (fs_configs training_yaml)) = (Ret cm, w')
    ∧ get_data_ingestion_config dash_conversion cm w' = (Ret {| raw_data_path := p |}, w')
    ∧ fs w' !! p = Some Dir.
Proof.
  destruct (ConfigurationManager_init yaml_loader no_pairs dash_conversion TRAINING_CONFIG_PATH
              (world_of (fs_configs training_yaml))) as [[cm|e] w'] eqn:Hrun;
    [| vm_compute in Hrun; discriminate].
  destruct (get_data_ingestion_config_after_init yaml_loader no_pairs dash_conversion TRAINING_CONFIG_PATH
              (world_of (fs_configs training_yaml)) w' cm Hrun) as (p & H1 & H2 & _).
  exists cm, w', p. exact (conj eq_refl (conj H1 H2)).
Defined.

End configuration_more_runs.

Section logging_more_runs.
Import LoggingSetup Samples MoreSamples.



Lemma get_logger_other_name_witness :
  let w := (get_logger "app" app_log ModeW (world_of fs_root)).2 in
  let w' := (get_logger "Data Ingestion" ingestion_log ModeA w).2 in
  1 ≠ 0
  ∧ attached "app" 0 app_log ModeW w'
  ∧ attached "Data Ingestion" 1 ingestion_log ModeA w'.
Proof.
  intros w w'.
  assert (attached "app" 0 app_log ModeW w) as H1.
  { split; [vm_compute; reflexivity |]. split; [vm_compute; lia |].
    split; [vm_compute; reflexivity |]. exists "". vm_compute; reflexivity. }
  assert (loggerDict w !! "Data Ingestion" = None) as H2 by (vm_compute; reflexivity).
  assert (get_logger "Data Ingestion" ingestion_log ModeA w = (Ret 1, w')) as H3
    by (vm_compute; reflexivity).
  assert (¬ root_name "app") as Ha by (intros [H | H]; discriminate H).
  assert (¬ root_name "Data Ingestion") as Hb by (intros [H | H]; discriminate H).
  exact (get_logger_other_name "app" 0 app_log ModeW w "Data Ingestion" ingestion_log ModeA
           1 w' Ha Hb H1 H2 H3).
Defined.

End logging_more_runs.

Section data_acquisition_more_runs.
Import DataAcquisition DataAcquisitionMain Samples MoreSamples.

Lemma download_zip_fetches_witness :
  ∃ r' w2,
    download_zip (gdown_stores "PK") config_tmp (world_of fs_tmp) = (r', w2)
    ∧ trace w2 = trace (world_of fs_tmp)
                 ++ [EvFetch ("https://drive.google.com/uc?id=" +:+ file_id config_tmp)
                             (download_file_path config_tmp)]
    ∧ r' = Ret tt.
Proof.
  assert (Path_mkdir (parent (download_file_path config_tmp)) (world_of fs_tmp)
          = (Ret tt, world_of fs_tmp)) as H1 by (vm_compute; reflexivity).
  assert (∀ n, fs (world_of fs_tmp) !! download_file_path config_tmp = Some n
               → st_size n = 0%N) as H2
    by (intros n H; vm_compute in H; discriminate).
  assert (gdown_stores "PK" ("https://drive.google.com/uc?id=" +:+ file_id config_tmp)
            (download_file_path config_tmp) (fs (world_of fs_tmp))
          = (Ret tt, fs_archive)) as H3 by (vm_compute; reflexivity).
  destruct (download_zip_fetches (gdown_stores "PK") config_tmp (world_of fs_tmp)
              (world_of fs_tmp) (Ret tt) fs_archive H1 H2 H3)
    as (r' & w2 & Ha & Hb & _ & _ & Hc).
  exists r', w2. split; [exact Ha |]. split; [exact Hb |].
  apply Hc; [reflexivity |]. exists (File "PK"). vm_compute; reflexivity.
Defined.

Lemma extract_all_not_a_zip_witness :
  let w1 := (Path_mkdir (extract_dir config_tmp) (world_of fs_empty_archive)).2 in
  extract_all zip_one_entry config_tmp (world_of fs_empty_archive)
  = (Raise BadZipFile, add_event (EvZipOpen (download_file_path config_tmp)) w1).
Proof.
  intros w1.
  assert (fs (world_of fs_empty_archive) !! download_file_path config_tmp = Some (File ""))
    as H1 by (vm_compute; reflexivity).
  assert (zip_one_entry "" = None) as H2 by (vm_compute; reflexivity).
  assert (Path_mkdir (extract_dir config_tmp) (world_of fs_empty_archive) = (Ret tt, w1))
    as H3 by (vm_compute; reflexivity).
  exact (extract_all_not_a_zip zip_one_entry config_tmp (world_of fs_empty_archive) w1 ""
           H1 H2 H3).
Defined.

Lemma extract_all_writes_entries_witness :
  let m := {| arcname := ["flights.csv"; "raw"]; body := Some "a,b" |} in
  let w' := (extract_all zip_one_entry config_tmp (world_of fs_archive)).2 in
  fs w' !! (arcname m ++ extract_dir config_tmp) = Some (File "a,b").
Proof.
  intros m w'.
  assert (fs (world_of fs_archive) !! download_file_path config_tmp = Some (File "PK"))
    as H1 by (vm_compute; reflexivity).
  assert (zip_one_entry "PK" = Some ([] ++ m :: [])) as H2 by (vm_compute; reflexivity).
  assert (body m = Some "a,b") as H3 by reflexivity.
  assert (extract_all zip_one_entry config_tmp (world_of fs_archive) = (Ret tt, w'))
    as H4 by (vm_compute; reflexivity).
  exact (extract_all_writes_entries zip_one_entry config_tmp (world_of fs_archive) w'
           "PK" [] [] m "a,b" H1 H2 H3 (Forall_nil_2 _) H4).
Defined.

Lemma extract_all_stays_inside_witness :
  let w' := (extract_all zip_one_entry config_tmp (world_of fs_archive)).2 in
  fs w' !! ["a.zip"; "tmp"] = Some (File "PK").
Proof.
  intros w'.
  assert (extract_all zip_one_entry config_tmp (world_of fs_archive)
          = ((extract_all zip_one_entry config_tmp (world_of fs_archive)).1, w'))
    as H1 by (unfold w'; by destruct (extract_all zip_one_entry config_tmp (world_of fs_archive))).
  assert (fs (world_of fs_archive) !! ["a.zip"; "tmp"] = Some (File "PK")) as H2
    by (vm_compute; reflexivity).
  assert (¬ extract_dir config_tmp `suffix_of` ["a.zip"; "tmp"]) as H3.
  { apply (bool_decide_unpack (¬ extract_dir config_tmp `suffix_of` ["a.zip"; "tmp"])).
    vm_compute. exact I. }
  assert (".." ∉ extract_dir config_tmp) as H0.
  { apply (bool_decide_unpack (".." ∉ extract_dir config_tmp)). vm_compute. exact I. }
  exact (extract_all_stays_inside zip_one_entry config_tmp (world_of fs_archive) w'
           (extract_all zip_one_entry config_tmp (world_of fs_archive)).1 H0 H1
           ["a.zip"; "tmp"] (File "PK") H2 H3).
Defined.

Lemma main_existing_archive_witness :
  let run := main gdown_gives_up zip_one_entry config_tmp (world_of fs_archive) in
  extract_all zip_one_entry config_tmp
    (add_event (EvStdoutSkip (st_size (File "PK"))) (world_of fs_archive)) = (run.1, run.2)
  ∧ no_new_fetch (world_of fs_archive) run.2.
Proof.
  intros run.
  assert (fs (world_of fs_archive) !! download_file_path config_tmp = Some (File "PK"))
    as H1 by (vm_compute; reflexivity).
  assert (0 < st_size (File "PK"))%N as H2 by (vm_compute; reflexivity).
  assert (main gdown_gives_up zip_one_entry config_tmp (world_of fs_archive) = (run.1, run.2))
    as H3 by (unfold run;
              by destruct (main gdown_gives_up zip_one_entry config_tmp (world_of fs_archive))).
  exact (main_existing_archive gdown_gives_up zip_one_entry config_tmp (world_of fs_archive)
           run.2 (File "PK") run.1 wf_fs_archive H1 H2 H3).
Defined.

Lemma main_bad_download_witness :
  (main (gdown_stores "") zip_one_entry config_tmp (world_of fs_tmp)).1 = Raise BadZipFile.
Proof.
  assert (Path_mkdir (parent (download_file_path config_tmp)) (world_of fs_tmp)
          = (Ret tt, world_of fs_tmp)) as H1 by (vm_compute; reflexivity).
  assert (∀ n, fs (world_of fs_tmp) !! download_file_path config_tmp = Some n
               → st_size n = 0%N) as H2
    by (intros n H; vm_compute in H; discriminate).
  assert (gdown_stores "" ("https://drive.google.com/uc?id=" +:+ file_id config_tmp)
            (download_file_path config_tmp) (fs (world_of fs_tmp))
          = (Ret tt, fs_empty_archive)) as H3 by (vm_compute; reflexivity).
  assert (fs_empty_archive !! download_file_path config_tmp = Some (File "")) as H4
    by (vm_compute; reflexivity).
  assert (zip_one_entry "" = None) as H5 by (vm_compute; reflexivity).
  assert (Path_mkdir (extract_dir config_tmp)
            (set_fs (λ _, fs_empty_archive)
               (add_event (EvFetch ("https://drive.google.com/uc?id=" +:+ file_id config_tmp)
                                   (download_file_path config_tmp)) (world_of fs_tmp)))
          = (Ret tt,
             (Path_mkdir (extract_dir config_tmp)
                (set_fs (λ _, fs_empty_archive)
                   (add_event (EvFetch ("https://drive.google.com/uc?id=" +:+ file_id config_tmp)
                                       (download_file_path config_tmp))
                      (world_of fs_tmp)))).2)) as H6
    by (vm_compute; reflexivity).
  rewrite (main_bad_download (gdown_stores "") zip_one_entry config_tmp (world_of fs_tmp)
             (world_of fs_tmp) _ fs_empty_archive "" H1 H2 H3 H4 H5 H6).
  reflexivity.
Defined.

End data_acquisition_more_runs.

Section ingest_db_more_runs.
Import DataIO IngestDb Samples MoreSamples.

Lemma ingest_db_touches_only_db_witness :
  let w' := (ingest_db csv_parser dash_conversion ingestion_config world_data).2 in
  w' = set_db (db w') world_data ∧ (db world_data = None → w' = world_data).
Proof.
  intros w'.
  assert (ingest_db csv_parser dash_conversion ingestion_config world_data
          = ((ingest_db csv_parser dash_conversion ingestion_config world_data).1, w')) as H
    by (unfold w'; by destruct (ingest_db csv_parser dash_conversion ingestion_config world_data)).
  exact (ingest_db_touches_only_db csv_parser dash_conversion ingestion_config world_data w' _ H).
Defined.


End ingest_db_more_runs.

Section data_ingestion_runs.
Import LoggingSetup Exception EntityConfig Samples MoreSamples.

Local Abbreviation load_data_from_db_with engine :=
  (DataIngestion.load_data_from_db str_exn traceback_of engine csv_text midnight local_env).

Lemma load_data_from_db_raises_CustomException_witness :
  ∃ c w',
    load_data_from_db_with engine_for_any_url 0 ingestion (world_of fs_root)
    = (inl (DataIngestion.Enriched c), w')
    ∧ last (trace w') = Some (EvRootLog "ERROR" (CustomException_str c)).
Proof.
  destruct (load_data_from_db_with engine_for_any_url 0 ingestion (world_of fs_root))
    as [[e|[]] w'] eqn:Hrun; [| vm_compute in Hrun; discriminate].
  destruct (load_data_from_db_raises_CustomException str_exn traceback_of engine_for_any_url
              csv_text midnight local_env 0 ingestion (world_of fs_root) w' e Hrun)
    as (c & -> & _ & Hlast & _).
  exists c, w'. exact (conj eq_refl Hlast).
Defined.


Lemma load_data_from_db_reads_table_witness :
  let w' := (load_data_from_db_with engine_for_any_url 0 ingestion world_log_in_snapshot).2 in
  db w' = db world_log_in_snapshot
  ∧ ∃ content more,
      fs w' !! joinpath (raw_data_path (DataIngestion.config ingestion)) DataIngestion.RAW_FILE
      = Some (File content)
      ∧ content = csv_text prices +:+ more.
Proof.
  intros w'.
  assert (load_data_from_db_with engine_for_any_url 0 ingestion world_log_in_snapshot
          = (inr tt, w')) as H by (vm_compute; reflexivity).
  destruct (load_data_from_db_reads_table str_exn traceback_of engine_for_any_url
              csv_text midnight local_env 0 ingestion world_log_in_snapshot w' (inr tt) H)
    as [Hdb Hret].
  split; [exact Hdb |].
  destruct (Hret eq_refl) as (tables & df & content & Ht & Hdf & Hfile & Hstart).
  assert (df = prices) as ->.
  { assert (tables = {[ "flight_prices" := prices ]}) as -> by (injection Ht as <-; done).
    revert Hdf. vm_compute. by intros [= <-]. }
  destruct Hstart as [more Hmore].
  { intros lg h Hobj Hin.
    assert (lg = project_logger snapshot_path ModeA) as ->
      by (revert Hobj; vm_compute; by intros [= <-]).
    simpl in Hin. apply elem_of_cons in Hin as [-> | Hin]; [discriminate |].
    apply list_elem_of_singleton in Hin as ->. discriminate. }
  exists content, more. exact (conj Hfile Hmore).
Defined.


End data_ingestion_runs.

Section template_runs.
Import DataIO Stdout Template Samples.

Lemma template_only_adds_witness :
  let run := template (world_of fs_notes, []) in
  fs run.2.1 !! ["notes.txt"] = Some (File "n") ∧ [] `prefix_of` run.2.2.
Proof.
  intros run.
  assert (template (world_of fs_notes, []) = (run.1, (run.2.1, run.2.2))) as H
    by (unfold run; by destruct (template (world_of fs_notes, [])) as [r [w' out']]).
  destruct (template_only_adds (world_of fs_notes) run.2.1 [] run.2.2 run.1 H)
    as (Hkept & _ & _ & Hout).
  split; [| exact Hout]. apply Hkept. vm_compute; reflexivity.
Defined.

Lemma template_rerun_witness :
  ∃ w1 out1,
    template (world_of fs_root, []) = (Ret tt, (w1, out1))
    ∧ (template (w1, out1)).1 = Ret tt
    ∧ (template (w1, out1)).2.1 = w1.
Proof.
  destruct (template_returns (world_of fs_root) []) as (w1 & out1 & Hrun).
  - apply (bool_decide_unpack (wf_fs fs_root)). by vm_compute.
  - intros f q d _ _. apply fs_root_no_file.
  - exists w1, out1. split; [exact Hrun |].
    rewrite (template_rerun (world_of fs_root) w1 [] out1 Hrun). split; reflexivity.
Defined.

Lemma template_completes_witness :
  ∃ w' out',
    template (world_of fs_root, []) = (Ret tt, (w', out'))
    ∧ Forall (λ p, fs w' !! p = Some Dir) (folder_paths folders)
    ∧ Forall (λ p, is_Some (fs w' !! p)) (placeholder_paths placeholder_files).
Proof.
  apply (template_completes (world_of fs_root) []).
  - apply (bool_decide_unpack (wf_fs fs_root)). by vm_compute.
  - intros f q d _ _. apply fs_root_no_file.
Defined.

End template_runs.
